(** * Schedule lifecycle and stock ledger of the logistics tracker (src/app.py)

    A shallow embedding of the request handlers [update_schedule_status]
    (app.py 320-355) and [export_data] (app.py 460-470), together with the
    storage helpers they call ([execute_query], [log_activity], app.py
    202-219) and the role check [can_edit_data] (app.py 221-222).

    The relational store is a record of finite maps keyed by the SERIAL id.
    A psycopg2 connection is the pair of the committed database and the
    working copy seen inside the open transaction, plus the list of
    statements sent so far.  Handlers are written in a small state and
    exception monad over the connection. *)

From stdpp Require Import gmap strings list fin_maps pretty.

Open Scope Z_scope.

(** ** Tables (app.py 44-150) *)

(** A row of [ports] or of [plants]: both tables have the same columns
    (app.py 66-86). *)
Record site := Site {
  name : string;
  capacity : Z;
  current_stock : Z;
  location : option string;
  site_status : string;
  site_created_at : string
}.

(** A row of [schedules] (app.py 108-121).  The references are nullable. *)
Record schedule := Schedule {
  type : string;
  supplier_id : option Z;
  port_id : option Z;
  plant_id : option Z;
  vessel_id : option Z;
  rake_id : option Z;
  quantity : Z;
  scheduled_date : string;
  status : string;
  created_by : string;
  created_at : string
}.

(** A row of [stock_levels] (app.py 124-130). *)
Record stock_level := StockLevel {
  sl_port_id : option Z;
  sl_plant_id : option Z;
  sl_stock_level : Z;
  sl_timestamp : string
}.

(** A row of [user_activities] (app.py 133-139); the table is only ever
    appended to. *)
Record activity := Activity {
  user_email : string;
  action : string;
  details : string
}.

Record database := Database {
  ports : gmap Z site;
  plants : gmap Z site;
  schedules : gmap Z schedule;
  stock_levels : gmap Z stock_level;
  user_activities : list activity
}.

Definition with_current_stock (v : Z) (r : site) : site :=
  {| name := name r; capacity := capacity r; current_stock := v;
     location := location r; site_status := site_status r;
     site_created_at := site_created_at r |}.

Definition with_status (s : string) (r : schedule) : schedule :=
  {| type := type r; supplier_id := supplier_id r; port_id := port_id r;
     plant_id := plant_id r; vessel_id := vessel_id r; rake_id := rake_id r;
     quantity := quantity r; scheduled_date := scheduled_date r; status := s;
     created_by := created_by r; created_at := created_at r |}.

Definition with_ports (t : gmap Z site) (d : database) : database :=
  {| ports := t; plants := plants d; schedules := schedules d;
     stock_levels := stock_levels d; user_activities := user_activities d |}.

Definition with_plants (t : gmap Z site) (d : database) : database :=
  {| ports := ports d; plants := t; schedules := schedules d;
     stock_levels := stock_levels d; user_activities := user_activities d |}.

Definition with_schedules (t : gmap Z schedule) (d : database) : database :=
  {| ports := ports d; plants := plants d; schedules := t;
     stock_levels := stock_levels d; user_activities := user_activities d |}.

Definition with_user_activities (l : list activity) (d : database) : database :=
  {| ports := ports d; plants := plants d; schedules := schedules d;
     stock_levels := stock_levels d; user_activities := l |}.

(** ** SQL statements and their effect on the working copy *)

(** The columns are declared INTEGER: PostgreSQL raises "integer out of
    range" when an arithmetic result leaves the 32-bit signed range. *)
Definition int4 (z : Z) : bool :=
  bool_decide (-2147483648 ≤ z ≤ 2147483647).

(** The statements the two handlers send, with their parameters. *)
Inductive statement :=
| SelectSchedule (id : Z)
    (* SELECT * FROM schedules WHERE id = %s *)
| UpdatePortStock (delta : Z) (id : option Z)
    (* UPDATE ports SET current_stock = current_stock + delta WHERE id = %s *)
| UpdatePlantStock (delta : Z) (id : option Z)
    (* UPDATE plants SET current_stock = current_stock + delta WHERE id = %s *)
| InsertActivity (a : activity)
    (* INSERT INTO user_activities (user_email, action, details) VALUES ... *)
| UpdateScheduleStatus (s : string) (id : Z)
    (* UPDATE schedules SET status = %s WHERE id = %s *)
| SelectAll (table : string)
    (* SELECT * FROM <table> *)
| Commit
| Rollback.

Inductive db_error :=
| StorageFailure        (* the server or the link failed on this call *)
| NumericOutOfRange     (* integer out of range *)
| UndefinedTable.       (* relation does not exist *)

(** [UPDATE t SET current_stock = current_stock + delta WHERE id = i].
    A NULL or dangling reference matches no row and changes nothing. *)
Definition add_stock (delta : Z) (id : option Z) (t : gmap Z site)
  : db_error + gmap Z site :=
  match id with
  | None => inr t
  | Some i =>
      match t !! i with
      | None => inr t
      | Some r =>
          if int4 (current_stock r + delta)
          then inr (<[i := with_current_stock (current_stock r + delta) r]> t)
          else inl NumericOutOfRange
      end
  end.

(** [UPDATE schedules SET status = s WHERE id = i]. *)
Definition set_status (s : string) (i : Z) (t : gmap Z schedule)
  : gmap Z schedule :=
  alter (with_status s) i t.

(** ** Connections *)

Record connection := Connection {
  committed : database;     (* what every other session can see *)
  working : database;       (* what this transaction sees *)
  issued : list statement   (* the calls made on this connection, oldest first *)
}.

(** [get_db] (app.py 28-31): a request starts with a fresh connection. *)
Definition get_db (d : database) : connection :=
  {| committed := d; working := d; issued := [] |}.

Inductive outcome (A : Type) :=
| Returned (a : A)
| Raised (e : db_error).
Arguments Returned {A} a.
Arguments Raised {A} e.

Definition M (A : Type) : Type := connection → outcome A * connection.

Definition ret {A} (a : A) : M A := λ c, (Returned a, c).

Definition bind {A B} (m : M A) (k : A → M B) : M B :=
  λ c, match m c with
       | (Returned a, c') => k a c'
       | (Raised e, c') => (Raised e, c')
       end.

Notation "x <~ m ;; k" := (bind m (λ x, k))
  (at level 100, m at level 99, right associativity).
Notation "m ;;; k" := (bind m (λ _, k))
  (at level 100, right associativity).

(** [try: body except Exception: handler] where both produce the value the
    function returns. *)
Definition try_except {A} (body : M A) (handler : connection → A * connection)
  : connection → A * connection :=
  λ c, match body c with
       | (Returned a, c') => (a, c')
       | (Raised _, c') => handler c'
       end.

Section Storage.

(** Which calls to the server fail: [faults k] says that the call made
    when [k] calls have already been made on the connection raises. *)
Variable faults : nat → bool.

Definition sent (q : statement) (c : connection) : connection :=
  {| committed := committed c; working := working c;
     issued := issued c ++ [q] |}.

(** [cur.execute(q)]: the statement runs against the working copy. *)
Definition cur_execute {A} (q : statement)
    (run : database → db_error + (A * database)) : M A :=
  λ c, if faults (length (issued c)) then (Raised StorageFailure, sent q c)
       else match run (working c) with
            | inl e => (Raised e, sent q c)
            | inr (a, w) =>
                (Returned a,
                 {| committed := committed c; working := w;
                    issued := issued c ++ [q] |})
            end.

(** [conn.commit()]. *)
Definition conn_commit : M unit :=
  λ c, if faults (length (issued c)) then (Raised StorageFailure, sent Commit c)
       else (Returned (),
             {| committed := working c; working := working c;
                issued := issued c ++ [Commit] |}).

(** [conn.rollback()]. *)
Definition conn_rollback (c : connection) : connection :=
  {| committed := committed c; working := committed c;
     issued := issued c ++ [Rollback] |}.

(** [execute_query] (app.py 202-213): run one statement on the request's
    connection and commit that connection. *)
Definition execute_query {A} (q : statement)
    (run : database → db_error + (A * database)) : M A :=
  result <~ cur_execute q run ;;
  conn_commit ;;;
  ret result.

(** [log_activity] (app.py 215-219). *)
Definition log_activity (email act det : string) : M unit :=
  let a := Activity email act det in
  execute_query (InsertActivity a)
    (λ d, inr ((), with_user_activities (user_activities d ++ [a]) d)).

End Storage.

(** ** Access policy (app.py 221-225) *)

Definition can_edit_data (user_role : option string) : bool :=
  match user_role with
  | Some r => bool_decide (r ∈ ["admin"; "owner"; "manager"])
  | None => false
  end.

Definition is_owner (user_role : option string) : bool :=
  match user_role with
  | Some r => bool_decide (r ∈ ["admin"; "owner"])
  | None => false
  end.

(** ** Responses *)

Inductive response :=
| Json (success : bool) (message : string) (code : nat)
    (* jsonify({'success': .., 'message': ..}), code *)
| Redirect (endpoint : string)
    (* redirect(url_for(endpoint)) *)
| Text (body : string) (code : nat)
| CsvAttachment (body : string) (filename : string)
    (* body, 200, text/csv, attachment; filename=.. *)
| Unhandled (e : db_error).
    (* an exception that leaves the view function *)

(** The responses of [update_schedule_status], under the names of the error
    taxonomy. *)
Definition Unauthorized : response := Json false "Unauthorized" 403.
Definition InvalidStatus : response := Json false "Invalid status provided." 400.
Definition NotFound : response := Json false "Schedule not found." 404.
Definition InvalidTransition (current : string) : response :=
  Json false ("Schedule is already " +:+ current +:+ ".") 400.
Definition InternalError : response :=
  Json false "An error occurred during the update." 500.
Definition Updated (schedule_id : Z) (new_status : string) : response :=
  Json true ("Schedule #" +:+ pretty schedule_id +:+ " updated to '"
             +:+ new_status +:+ "'.") 200.

(** ** The status transition (app.py 320-355) *)

Definition recognized : list string :=
  ["scheduled"; "in-progress"; "delayed"; "completed"; "canceled"].

Definition terminal (s : string) : bool :=
  bool_decide (s ∈ ["completed"; "canceled"]).

Section Handlers.

Variable faults : nat → bool.

(** [UPDATE ports SET current_stock = current_stock + delta WHERE id = id]
    sent through the request's cursor; the decrement of app.py 343 is the
    call with [- quantity]. *)
Definition update_ports (delta : Z) (id : option Z) : M unit :=
  cur_execute faults (UpdatePortStock delta id)
    (λ d, match add_stock delta id (ports d) with
          | inl e => inl e
          | inr t => inr ((), with_ports t d)
          end).

Definition update_plants (delta : Z) (id : option Z) : M unit :=
  cur_execute faults (UpdatePlantStock delta id)
    (λ d, match add_stock delta id (plants d) with
          | inl e => inl e
          | inr t => inr ((), with_plants t d)
          end).

(** app.py 339-344: the stock delta of a completion. *)
Definition apply_stock_delta (sch : schedule) : M unit :=
  if bool_decide (type sch = "vessel-to-port") then
    update_ports (quantity sch) (port_id sch)
  else if bool_decide (type sch = "port-to-plant") then
    update_ports (- quantity sch) (port_id sch) ;;;
    update_plants (quantity sch) (plant_id sch)
  else ret ().

(** app.py 332-347: read the schedule, reject what cannot move, apply the
    stock delta of a completion and log.  [inl r] is an early [return r];
    [inr ()] falls through to the status write. *)
Definition apply_and_log (user : string) (schedule_id : Z) (new_status : string)
  : M (response + unit) :=
  found <~ cur_execute faults (SelectSchedule schedule_id)
             (λ d, inr (schedules d !! schedule_id, d)) ;;
  match found with
  | None => ret (inl NotFound)
  | Some sch =>
      if terminal (status sch) then ret (inl (InvalidTransition (status sch)))
      else
        (if bool_decide (new_status = "completed") then
           apply_stock_delta sch ;;;
           log_activity faults user "update_status"
             ("Completed schedule #" +:+ pretty schedule_id
              +:+ " and updated stock.")
         else
           log_activity faults user "update_status"
             ("Updated schedule #" +:+ pretty schedule_id +:+ " to '"
              +:+ new_status +:+ "'.")) ;;;
        ret (inr ())
  end.

(** app.py 349-351: the status write, the final commit and the answer. *)
Definition write_status (schedule_id : Z) (new_status : string) : M response :=
  cur_execute faults (UpdateScheduleStatus new_status schedule_id)
    (λ d, inr ((), with_schedules (set_status new_status schedule_id (schedules d)) d)) ;;;
  conn_commit faults ;;;
  ret (Updated schedule_id new_status).

(** app.py 332-351, the body of the [try]. *)
Definition transaction (user : string) (schedule_id : Z) (new_status : string)
  : M response :=
  early <~ apply_and_log user schedule_id new_status ;;
  match early with
  | inl r => ret r
  | inr _ => write_status schedule_id new_status
  end.

(** app.py 352-355.  The rollback is a call to the server like the others:
    when it raises too, the exception leaves the view and the connection
    is closed with whatever was pending, which is dropped. *)
Definition on_exception (c : connection) : response * connection :=
  if faults (length (issued c)) then (Unhandled StorageFailure, sent Rollback c)
  else (InternalError, conn_rollback c).

(** app.py 322-327: the two guards that run before the store is touched.
    [session] is the Flask session, [new_status] the value under "status"
    in the JSON body ([None] when it is absent or null; a value that is not
    a string is in no case one of the five and behaves as an unrecognized
    string).  [inr (user, s)] lets the request through. *)
Definition check_request (session : gmap string string)
    (new_status : option string) : response + (string * string) :=
  match session !! "user" with
  | None => inl Unauthorized
  | Some user =>
      if negb (can_edit_data (session !! "role")) then inl Unauthorized
      else
        match new_status with
        | None => inl InvalidStatus
        | Some s =>
            if bool_decide (s = "") || negb (bool_decide (s ∈ recognized))
            then inl InvalidStatus
            else inr (user, s)
        end
  end.

(** [update_schedule_status] (app.py 320-355). *)
Definition update_schedule_status (session : gmap string string)
    (schedule_id : Z) (new_status : option string)
  : connection → response * connection :=
  λ conn,
  match check_request session new_status with
  | inl r => (r, conn)
  | inr (user, s) =>
      try_except (transaction user schedule_id s) on_exception conn
  end.

End Handlers.

(** One request served against the store [d] on a connection of its own:
    the answer and what is committed once the connection is closed
    ([close_db], app.py 33-37, drops whatever was not committed). *)
Definition serve (handler : connection → response * connection) (d : database)
  : response * database :=
  let '(r, c) := handler (get_db d) in (r, committed c).

Definition no_faults : nat → bool := λ _, false.

(** The rows [init_db_logic] seeds (app.py 164-191); the dates, which the
    source takes relative to the day of initialisation, are fixed here. *)
Definition seed_site (n : string) (cap stock : Z) : site :=
  Site n cap stock None "operational" "2025-01-01 00:00:00".

Definition seed_db : database :=
  {| ports := <[1 := seed_site "Port X" 10000 5000]>
              (<[2 := seed_site "Port Y" 15000 8000]> ∅);
     plants := <[1 := seed_site "Plant 1" 5000 2000]>
               (<[2 := seed_site "Plant 2" 7000 3000]> ∅);
     schedules :=
       <[1 := Schedule "vessel-to-port" (Some 1) (Some 1) None (Some 1) None
                5000 "2025-01-06" "scheduled" "system" "2025-01-01 00:00:00"]>
       (<[2 := Schedule "port-to-plant" (Some 1) (Some 2) (Some 1) None (Some 1)
                2000 "2024-12-22" "completed" "system" "2025-01-01 00:00:00"]>
       (<[3 := Schedule "vessel-to-port" (Some 1) (Some 2) None (Some 1) None
                7500 "2025-01-03" "in-progress" "system" "2025-01-01 00:00:00"]>
        ∅));
     stock_levels := ∅;
     user_activities := [] |}.

Definition manager_session : gmap string string :=
  <["user" := "manager@example.com"]> (<["role" := "manager"]> ∅).


(** ** Two requests at once

    Every request has a connection of its own ([g] is per request) and the
    requests meet in the committed store.  [log_activity] commits the
    request's connection, so a transition that gets as far as the log runs
    as two transactions: app.py 332-347 up to that commit, then the status
    write with the final commit.  Whole transactions of different requests
    may run in any order; [turn] runs the next transaction of one request
    against the store as the others left it.  No call fails here. *)

Record request := Request {
  req_session : gmap string string;
  req_schedule_id : Z;
  req_new_status : option string
}.

Inductive progress :=
| NotStarted
| Logged (new_status : string)   (* committed by the log, status still to write *)
| Answered (r : response).

Definition turn (rq : request) (p : progress) (store : database)
  : progress * database :=
  match p with
  | NotStarted =>
      match check_request (req_session rq) (req_new_status rq) with
      | inl r => (Answered r, store)
      | inr (user, s) =>
          match apply_and_log no_faults user (req_schedule_id rq) s (get_db store) with
          | (Returned (inl r), c) => (Answered r, committed c)
          | (Returned (inr _), c) => (Logged s, committed c)
          | (Raised _, c) => (Answered InternalError, committed (conn_rollback c))
          end
      end
  | Logged s =>
      let '(r, c) := try_except (write_status no_faults (req_schedule_id rq) s)
                       (on_exception no_faults) (get_db store) in
      (Answered r, committed c)
  | Answered r => (Answered r, store)
  end.

(** Two requests [a] and [b]; [order] says whose transaction runs next
    ([true] for [a]). *)
Fixpoint interleave (a b : request) (order : list bool)
    (pa pb : progress) (store : database) : progress * progress * database :=
  match order with
  | [] => (pa, pb, store)
  | true :: rest =>
      let '(pa', store') := turn a pa store in interleave a b rest pa' pb store'
  | false :: rest =>
      let '(pb', store') := turn b pb store in interleave a b rest pa pb' store'
  end.

(** ** CSV export (app.py 460-470) *)

Inductive cell :=
| Null
| Int (z : Z)
| Str (s : string).

(** A row as RealDictCursor returns it: the columns in table order. *)
Definition row : Type := list (string * cell).

Definition nullable (o : option Z) : cell :=
  match o with Some z => Int z | None => Null end.

Definition nullable_text (o : option string) : cell :=
  match o with Some s => Str s | None => Null end.

Definition schedule_row (kv : Z * schedule) : row :=
  [("id", Int kv.1); ("type", Str (type kv.2));
   ("supplier_id", nullable (supplier_id kv.2));
   ("port_id", nullable (port_id kv.2));
   ("plant_id", nullable (plant_id kv.2));
   ("vessel_id", nullable (vessel_id kv.2));
   ("rake_id", nullable (rake_id kv.2));
   ("quantity", Int (quantity kv.2));
   ("scheduled_date", Str (scheduled_date kv.2));
   ("status", Str (status kv.2));
   ("created_by", Str (created_by kv.2));
   ("created_at", Str (created_at kv.2))].

Definition stock_level_row (kv : Z * stock_level) : row :=
  [("id", Int kv.1);
   ("port_id", nullable (sl_port_id kv.2));
   ("plant_id", nullable (sl_plant_id kv.2));
   ("stock_level", Int (sl_stock_level kv.2));
   ("timestamp", Str (sl_timestamp kv.2))].

Definition site_row (kv : Z * site) : row :=
  [("id", Int kv.1); ("name", Str (name kv.2));
   ("capacity", Int (capacity kv.2));
   ("current_stock", Int (current_stock kv.2));
   ("location", nullable_text (location kv.2));
   ("status", Str (site_status kv.2));
   ("created_at", Str (site_created_at kv.2))].

(** [SELECT * FROM <table>] over the tables of the model; the rows come in
    the order the map enumerates them (SQL promises none). *)
Definition select_all (table : string) (d : database) : db_error + list row :=
  if bool_decide (table = "schedules")
  then inr (schedule_row <$> map_to_list (schedules d))
  else if bool_decide (table = "stock_levels")
  then inr (stock_level_row <$> map_to_list (stock_levels d))
  else if bool_decide (table = "ports")
  then inr (site_row <$> map_to_list (ports d))
  else if bool_decide (table = "plants")
  then inr (site_row <$> map_to_list (plants d))
  else inl UndefinedTable.

Section CsvExport.

Variable faults : nat → bool.

(** [csv.DictWriter(output, fieldnames).writeheader()] followed by
    [writerows(rows)], as the text written: the serializer of Python's
    standard library, which this repository only calls. *)
Variable dict_writer : list string → list row → string.

(** app.py 465-469: the text written to [output]; nothing for an empty
    table, else the header from the first row's keys and every row. *)
Definition csv_body (data : list row) : string :=
  match data with
  | [] => ""
  | first :: _ => dict_writer (first.*1) data
  end.

(** [export_data] (app.py 460-470). *)
Definition export_data (session : gmap string string) (data_type : string)
  : connection → response * connection :=
  λ conn,
  match session !! "user" with
  | None => (Redirect "login", conn)
  | Some _ =>
      if negb (bool_decide (data_type ∈ ["schedules"; "stock_levels"]))
      then (Text "Invalid data type" 400, conn)
      else
        match execute_query faults (SelectAll data_type)
                (λ d, match select_all data_type d with
                      | inl e => inl e
                      | inr rows => inr (rows, d)
                      end) conn with
        | (Raised e, c) => (Unhandled e, c)
        | (Returned data, c) =>
            (CsvAttachment (csv_body data) (data_type +:+ ".csv"), c)
        end
  end.

End CsvExport.


(** ** Vocabulary of the statements below *)

(** The caller passes the role gate of app.py 322. *)
Definition authorized (session : gmap string string) : Prop :=
  is_Some (session !! "user") ∧ can_edit_data (session !! "role") = true.

(** The value under "status" is none of the five. *)
Definition unrecognized (new_status : option string) : Prop :=
  ∀ s, new_status = Some s → s ∉ recognized.

(** The bound the data model asks of every port and plant. *)
Definition within_capacity (r : site) : Prop :=
  0 ≤ current_stock r ≤ capacity r.

Definition stock_bounds (d : database) : Prop :=
  map_Forall (λ _, within_capacity) (ports d)
  ∧ map_Forall (λ _, within_capacity) (plants d).

(** The delta of completing [sch] keeps the rows it touches within their
    bounds. *)
Definition delta_fits (sch : schedule) (d : database) : Prop :=
  if bool_decide (type sch = "vessel-to-port") then
    ∀ p r, port_id sch = Some p → ports d !! p = Some r →
           0 ≤ current_stock r + quantity sch ≤ capacity r
  else if bool_decide (type sch = "port-to-plant") then
    (∀ p r, port_id sch = Some p → ports d !! p = Some r →
            0 ≤ current_stock r - quantity sch ≤ capacity r)
    ∧ (∀ p r, plant_id sch = Some p → plants d !! p = Some r →
              0 ≤ current_stock r + quantity sch ≤ capacity r)
  else True.

(** A serializer to run [export_data] with: the header and the rows, comma
    separated, one per line, nothing quoted. *)
Definition cell_text (c : cell) : string :=
  match c with
  | Null => ""
  | Int z => pretty z
  | Str s => s
  end.

Definition plain_writer (fieldnames : list string) (rows : list row) : string :=
  String.concat (String (Ascii.ascii_of_nat 10) "")
    (String.concat "," fieldnames
     :: map (λ r : row, String.concat "," (cell_text <$> r.*2)) rows).

(** ** Upload filter (app.py 20-25) *)

Definition ALLOWED_EXTENSIONS : list string := ["csv"; "xlsx"; "xls"].

Definition dot : Ascii.ascii := Ascii.ascii_of_nat 46.

(** [c in s] for a one-character [c]. *)
Fixpoint has_char (c : Ascii.ascii) (s : string) : bool :=
  match s with
  | EmptyString => false
  | String a rest => bool_decide (a = c) || has_char c rest
  end.

(** [s.rsplit(sep, 1)]: one split at the last [sep], the whole string alone
    when there is none. *)
Fixpoint rsplit1 (sep : Ascii.ascii) (s : string) : list string :=
  match s with
  | EmptyString => [EmptyString]
  | String a rest =>
      match rsplit1 sep rest with
      | [h; t] => [String a h; t]
      | _ => if bool_decide (a = sep) then [EmptyString; rest] else [s]
      end
  end.

(** [str.lower] on the letters A-Z; the strings are the UTF-8 bytes of the
    file name, and no character outside A-Z lowers to a letter of the
    allowed extensions. *)
Definition lower_ascii (a : Ascii.ascii) : Ascii.ascii :=
  let n := Ascii.nat_of_ascii a in
  if ((65 <=? n) && (n <=? 90))%nat then Ascii.ascii_of_nat (n + 32) else a.

Fixpoint lower (s : string) : string :=
  match s with
  | EmptyString => EmptyString
  | String a rest => String (lower_ascii a) (lower rest)
  end.

(** [allowed_file] (app.py 24-25). *)
Definition allowed_file (filename : string) : bool :=
  has_char dot filename
  && match rsplit1 dot filename !! 1%nat with
     | Some ext => bool_decide (lower ext ∈ ALLOWED_EXTENSIONS)
     | None => false
     end.

(** ** Requests one after the other *)

(** Status transitions served in turn, each on a connection of its own and
    with its own pattern of failing calls. *)
Fixpoint serve_in_turn (rqs : list ((nat → bool) * request)) (d : database)
  : database :=
  match rqs with
  | [] => d
  | (faults, rq) :: rest =>
      serve_in_turn rest
        (serve (update_schedule_status faults (req_session rq)
                  (req_schedule_id rq) (req_new_status rq)) d).2
  end.

(** Completing [sch] makes a stock update leave the INTEGER range. *)
Definition delta_overflows (sch : schedule) (d : database) : Prop :=
  (type sch = "vessel-to-port"
   ∧ ∃ p r, port_id sch = Some p ∧ ports d !! p = Some r
            ∧ int4 (current_stock r + quantity sch) = false)
  ∨ (type sch = "port-to-plant"
     ∧ ((∃ p r, port_id sch = Some p ∧ ports d !! p = Some r
                ∧ int4 (current_stock r - quantity sch) = false)
        ∨ (∃ p r, plant_id sch = Some p ∧ plants d !! p = Some r
                  ∧ int4 (current_stock r + quantity sch) = false))).

(** The reference is NULL or names no row of the table. *)
Definition dangling (id : option Z) (t : gmap Z site) : Prop :=
  ∀ i, id = Some i → t !! i = None.

(** ** Accounts (app.py 45-53, 233-265) *)

(** A row of [users] (app.py 45-53). *)
Record user_row := UserRow {
  u_email : string;
  u_password : string;     (* the hash, never the password *)
  u_name : string;
  u_role : string;
  u_verified : bool
}.

(** The store as [signup] and [login] see it: the tables above, the users
    table, and the number of calls made to the server so far in the
    request.  Both handlers talk to the store through [execute_query] only,
    so nothing is ever pending between two of their calls. *)
Record backend := Backend {
  b_db : database;
  b_users : gmap Z user_row;
  b_calls : nat
}.

Inductive failure :=
| DbError (e : db_error)
| UniqueViolation       (* duplicate key value violates unique constraint *)
| ValueTooLong          (* value too long for type character varying(n) *)
| NoJsonBody            (* [request.get_json()] has no object to give *)
| NotAString            (* None where the hash check needs a string *)
| ForeignKeyViolation   (* the row is still referenced *)
| ValueError            (* [int()] of a text that is no number *)
| TypeError.            (* [int()] of None *)

Definition W (A : Type) : Type := backend → (failure + A) * backend.

Definition wret {A} (a : A) : W A := λ b, (inr a, b).

Definition wbind {A B} (m : W A) (k : A → W B) : W B :=
  λ b, match m b with
       | (inr a, b') => k a b'
       | (inl e, b') => (inl e, b')
       end.

Notation "x <~~ m ;; k" := (wbind m (λ x, k))
  (at level 100, m at level 99, right associativity).

(** [SELECT * FROM users WHERE email = %s], [fetch='one']: emails are
    unique, so at most one row matches; a NULL parameter matches none. *)
Definition user_by_email (email : option string) (t : gmap Z user_row)
  : option (Z * user_row) :=
  match email with
  | None => None
  | Some e => head (filter (λ kv, u_email kv.2 = e) (map_to_list t))
  end.

Section Accounts.

Variable faults : nat → bool.

(** A row as the VARCHAR(n) columns of [users] keep it, [None] when one of
    its values is too long for its column. *)
Variable store_as : user_row → option user_row.

(** werkzeug's [generate_password_hash], with the salt it draws made an
    argument, and [check_password_hash]. *)
Variable generate_password_hash : string → string → string.
Variable check_password_hash : string → string → bool.

(** [str(e)] for the exceptions of the store. *)
Variable describe : failure → string.

(** [execute_query] (app.py 202-213) for a statement on the users table:
    the statement, then the commit; either call may fail. *)
Definition users_query {A}
    (run : gmap Z user_row → failure + (A * gmap Z user_row)) : W A :=
  λ b, if faults (b_calls b)
       then (inl (DbError StorageFailure), Backend (b_db b) (b_users b) (S (b_calls b)))
       else match run (b_users b) with
            | inl e => (inl e, Backend (b_db b) (b_users b) (S (b_calls b)))
            | inr (a, t) =>
                if faults (S (b_calls b))
                then (inl (DbError StorageFailure),
                      Backend (b_db b) (b_users b) (S (S (b_calls b))))
                else (inr a, Backend (b_db b) t (S (S (b_calls b))))
            end.

(** [log_activity] (app.py 215-219) on the request's connection, which
    holds nothing pending. *)
Definition record_activity (email act det : string) : W unit :=
  λ b, match log_activity (λ k, faults (b_calls b + k)%nat) email act det
               (get_db (b_db b)) with
       | (Returned _, c) =>
           (inr (), Backend (committed c) (b_users b)
                      (b_calls b + length (issued c)))
       | (Raised e, c) =>
           (inl (DbError e), Backend (committed c) (b_users b)
                               (b_calls b + length (issued c)))
       end.

(** [INSERT INTO users (email, password, name, role, verified) VALUES ...]
    where the sequence behind the SERIAL id hands out [id]. *)
Definition insert_user (id : Z) (r : user_row) (t : gmap Z user_row)
  : failure + (unit * gmap Z user_row) :=
  match store_as r with
  | None => inl ValueTooLong
  | Some kept =>
      if bool_decide (is_Some (t !! id)) then inl UniqueViolation
      else if bool_decide (is_Some (user_by_email (Some (u_email kept)) t))
      then inl UniqueViolation
      else inr ((), <[id := kept]> t)
  end.

(** Python's truth of a JSON string that may be absent. *)
Definition given (field : option string) : bool :=
  match field with
  | None => false
  | Some s => negb (bool_decide (s = ""))
  end.

(** app.py 251-263, the body of the [try].  [body] is the JSON object of
    the request, its values strings, [None] when the request carries no
    JSON object; [salt] is the salt the hash draws and [id] the id the
    sequence hands out should a row be inserted. *)
Definition register (salt : string) (id : Z) (body : option (gmap string string))
  : W response :=
  match body with
  | None => λ b, (inl NoJsonBody, b)
  | Some data =>
      let email := data !! "email" in
      let password := data !! "password" in
      let name := data !! "name" in
      let role := "user" in
      if negb (given email && given password && given name)
      then wret (Json false "All fields are required" 200)
      else
        existing <~~ users_query (λ t, inr (user_by_email email t, t)) ;;
        match existing with
        | Some _ => wret (Json false "User already exists" 200)
        | None =>
            let hashed_password :=
              generate_password_hash salt (default "" password) in
            _ <~~ users_query
                    (insert_user id
                       (UserRow (default "" email) hashed_password
                          (default "" name) role true)) ;;
            _ <~~ record_activity (default "" email) "signup"
                    ("New user registered as " +:+ role) ;;
            wret (Json true "Registration successful! You can now login." 200)
        end
  end.

(** [signup] (app.py 248-265). *)
Definition signup (salt : string) (id : Z) (body : option (gmap string string))
  : backend → response * backend :=
  λ b,
  match register salt id body b with
  | (inr r, b') => (r, b')
  | (inl e, b') => (Json false ("Registration error: " +:+ describe e) 200, b')
  end.

(** What [login] answers. *)
Inductive login_result :=
| ToDashboard                       (* redirect(url_for('dashboard')) *)
| LoginPage (error : option string) (* render_template('login.html', ...) *)
| LoginFailed (e : failure).        (* an exception leaves the view *)

(** [login] (app.py 233-246).  [form] holds the fields of a POST, [None]
    stands for a GET. *)
Definition login (form : option (gmap string string))
    (session : gmap string string)
  : backend → login_result * gmap string string * backend :=
  λ b,
  match form with
  | None => (LoginPage None, session, b)
  | Some fields =>
      let email := fields !! "email" in
      let password := fields !! "password" in
      let role := fields !! "role" in
      match users_query (λ t, inr (user_by_email email t, t)) b with
      | (inl e, b') => (LoginFailed e, session, b')
      | (inr user, b') =>
          match user, email, password with
          | Some _, _, None => (LoginFailed NotAString, session, b')
          | Some (id, row), Some e, Some p =>
              if check_password_hash (u_password row) p
                 && bool_decide (Some (u_role row) = role)
              then
                let session' :=
                  <["user" := e]> (<["role" := u_role row]>
                  (<["name" := u_name row]> (<["user_id" := pretty id]> session))) in
                match record_activity e "login"
                        ("User logged in as " +:+ u_role row) b' with
                | (inr _, b'') => (ToDashboard, session', b'')
                | (inl err, b'') => (LoginFailed err, session', b'')
                end
              else (LoginPage (Some "Invalid credentials or role mismatch"),
                    session, b')
          | _, _, _ => (LoginPage (Some "Invalid credentials or role mismatch"),
                        session, b')
          end
      end
  end.

End Accounts.

(** No two rows of [users] share an email (the UNIQUE constraint). *)
Definition unique_emails (t : gmap Z user_row) : Prop :=
  ∀ i j r r', t !! i = Some r → t !! j = Some r' → u_email r = u_email r' → i = j.

(** Stand-ins to run [signup] and [login] with: every value fits its
    column, the hash is the salt and the password side by side. *)
Definition keep_all (r : user_row) : option user_row := Some r.

Definition toy_hash (salt password : string) : string :=
  salt +:+ "$" +:+ password.

Definition toy_check (pwhash password : string) : bool :=
  bool_decide (pwhash = toy_hash "salt" password).

Definition toy_describe (e : failure) : string := "the store failed".

Definition empty_backend : backend := Backend seed_db ∅ 0.

Definition new_account : gmap string string :=
  <["email" := "ann@example.com"]> (<["password" := "secret"]>
  (<["name" := "Ann"]> (<["role" := "admin"]> ∅))).

(** ** Locations (app.py 374-403) *)

(** The JSON values the two handlers read: null or absent, a number, a
    text.  Numbers are whole; booleans, arrays and objects are left out. *)
Inductive json :=
| JNull
| JNumber (z : Z)
| JString (s : string).

#[global] Instance json_eq_dec : EqDecision json.
Proof. solve_decision. Defined.

(** Python's truth of such a value. *)
Definition truthy (v : json) : bool :=
  match v with
  | JNull => false
  | JNumber z => negb (bool_decide (z = 0))
  | JString s => negb (bool_decide (s = ""))
  end.

(** The value as an f-string prints it. *)
Definition text_of (v : json) : string :=
  match v with
  | JNull => "None"
  | JNumber z => pretty z
  | JString s => s
  end.

(** Some row of [schedules] or [stock_levels] points at the port, or at the
    plant (the REFERENCES of app.py 112-113 and 126-127). *)
Definition port_referencedb (id : Z) (d : database) : bool :=
  bool_decide (map_Exists (λ _ r, port_id r = Some id) (schedules d))
  || bool_decide (map_Exists (λ _ r, sl_port_id r = Some id) (stock_levels d)).

Definition plant_referencedb (id : Z) (d : database) : bool :=
  bool_decide (map_Exists (λ _ r, plant_id r = Some id) (schedules d))
  || bool_decide (map_Exists (λ _ r, sl_plant_id r = Some id) (stock_levels d)).

Section Locations.

Variable faults : nat → bool.

(** Python's [int()] on a text. *)
Variable parse_int : string → option Z.

(** A text as a VARCHAR(255) column keeps it, [None] when it is too
    long. *)
Variable store_text : string → option string.

(** [str.capitalize]. *)
Variable capitalize : string → string.

(** [DELETE FROM <name> WHERE id = %s] when [name] is not, letter for
    letter, one of ports, plants, schedules, stock_levels and users:
    another table, another spelling, or no table at all. *)
Variable delete_elsewhere :
  string → Z → database * gmap Z user_row
  → failure + (database * gmap Z user_row).

(** [execute_query] (app.py 202-213) for a statement on the tables of
    [database] or on users: the statement, then the commit. *)
Definition store_query {A}
    (run : database * gmap Z user_row
           → failure + (A * (database * gmap Z user_row))) : W A :=
  λ b, if faults (b_calls b)
       then (inl (DbError StorageFailure), Backend (b_db b) (b_users b) (S (b_calls b)))
       else match run (b_db b, b_users b) with
            | inl e => (inl e, Backend (b_db b) (b_users b) (S (b_calls b)))
            | inr (a, (d, t)) =>
                if faults (S (b_calls b))
                then (inl (DbError StorageFailure),
                      Backend (b_db b) (b_users b) (S (S (b_calls b))))
                else (inr a, Backend d t (S (S (b_calls b))))
            end.

(** [int(v)]. *)
Definition int_of (v : json) : failure + Z :=
  match v with
  | JNull => inl TypeError
  | JNumber z => inr z
  | JString s => match parse_int s with Some z => inr z | None => inl ValueError end
  end.

(** [INSERT INTO <table> (name, capacity, location) VALUES ...] for
    [ports] or [plants]; current_stock and status take their defaults, the
    sequence hands out [id] and the clock [now]. *)
Definition insert_site (id : Z) (now : string) (n : string) (cap : Z)
    (loc : option string) (t : gmap Z site) : failure + gmap Z site :=
  match store_text n, (match loc with
                       | None => Some None
                       | Some l => Some <$> store_text l
                       end) with
  | Some n', Some loc' =>
      if negb (int4 cap) then inl (DbError NumericOutOfRange)
      else if bool_decide (is_Some (t !! id)) then inl UniqueViolation
      else inr (<[id := Site n' cap 0 loc' "operational" now]> t)
  | _, _ => inl ValueTooLong
  end.

(** app.py 379-389, the body of the [try]. *)
Definition add_location_body (id : Z) (now user : string)
    (body : option (gmap string json)) : W response :=
  match body with
  | None => λ b, (inl NoJsonBody, b)
  | Some data =>
      let location_type := default JNull (data !! "type") in
      let name := default JNull (data !! "name") in
      let capacity_str := default JNull (data !! "capacity") in
      if negb (truthy location_type && truthy name && truthy capacity_str)
      then wret (Json false "Missing required fields." 400)
      else if negb (bool_decide (location_type = JString "port")
                    || bool_decide (location_type = JString "plant"))
      then wret (Json false "Invalid location type." 400)
      else
        match int_of capacity_str with
        | inl e => λ b, (inl e, b)
        | inr capacity =>
            let loc := match data !! "location" with
                       | None => Some ""
                       | Some JNull => None
                       | Some v => Some (text_of v)
                       end in
            _ <~~ store_query
                    (λ '(d, t),
                       if bool_decide (location_type = JString "port")
                       then match insert_site id now (text_of name) capacity loc (ports d) with
                            | inl e => inl e
                            | inr p => inr ((), (with_ports p d, t))
                            end
                       else match insert_site id now (text_of name) capacity loc (plants d) with
                            | inl e => inl e
                            | inr p => inr ((), (with_plants p d, t))
                            end) ;;
            _ <~~ record_activity faults user "add_location"
                    ("Added " +:+ text_of location_type +:+ ": " +:+ text_of name) ;;
            wret (Json true
                    ((if bool_decide (location_type = JString "port")
                      then "Port" else "Plant") +:+ " added successfully") 200)
        end
  end.

(** [add_location] (app.py 374-394). *)
Definition add_location (id : Z) (now : string) (session : gmap string string)
    (body : option (gmap string json)) : backend → response * backend :=
  λ b,
  match session !! "user" with
  | None => (Unauthorized, b)
  | Some user =>
      if negb (is_owner (session !! "role")) then (Unauthorized, b)
      else
        match add_location_body id now user body b with
        | (inr r, b') => (r, b')
        | (inl ValueError, b') | (inl TypeError, b') =>
            (Json false "Capacity must be a valid number." 400, b')
        | (inl _, b') =>
            (Json false "An unexpected server error occurred." 500, b')
        end
  end.

(** [DELETE FROM <table> WHERE id = %s]. *)
Definition delete_from (table : string) (id : Z)
    (s : database * gmap Z user_row)
  : failure + (unit * (database * gmap Z user_row)) :=
  let '(d, t) := s in
  if bool_decide (table = "ports") then
    if port_referencedb id d then inl ForeignKeyViolation
    else inr ((), (with_ports (delete id (ports d)) d, t))
  else if bool_decide (table = "plants") then
    if plant_referencedb id d then inl ForeignKeyViolation
    else inr ((), (with_plants (delete id (plants d)) d, t))
  else if bool_decide (table = "schedules") then
    inr ((), (with_schedules (delete id (schedules d)) d, t))
  else if bool_decide (table = "stock_levels") then
    inr ((), ({| ports := ports d; plants := plants d; schedules := schedules d;
                 stock_levels := delete id (stock_levels d);
                 user_activities := user_activities d |}, t))
  else if bool_decide (table = "users") then
    inr ((), (d, delete id t))
  else match delete_elsewhere table id (d, t) with
       | inl e => inl e
       | inr s' => inr ((), s')
       end.

(** [delete_location] (app.py 396-403); [inl] is an exception that leaves
    the view. *)
Definition delete_location (session : gmap string string)
    (body : option (gmap string json))
  : backend → (failure + response) * backend :=
  λ b,
  match session !! "user" with
  | None => (inr (Json false "Unauthorized" 200), b)
  | Some user =>
      if negb (is_owner (session !! "role"))
      then (inr (Json false "Unauthorized" 200), b)
      else
        match body with
        | None => (inl NoJsonBody, b)
        | Some data =>
            let location_type := default JNull (data !! "type") in
            match int_of (default JNull (data !! "id")) with
            | inl e => (inl e, b)
            | inr location_id =>
                (_ <~~ store_query
                         (delete_from (text_of location_type +:+ "s") location_id) ;;
                 _ <~~ record_activity faults user "delete_location"
                         ("Deleted " +:+ text_of location_type +:+ " #"
                          +:+ pretty location_id) ;;
                 match location_type with
                 | JString s =>
                     wret (Json true (capitalize s +:+ " deleted successfully") 200)
                 | _ => λ b, (inl NotAString, b)
                 end) b
            end
        end
  end.

End Locations.

(** Stand-ins to run the two handlers with. *)
Definition toy_parse_int (s : string) : option Z :=
  if bool_decide (s = "12000") then Some 12000
  else if bool_decide (s = "-5") then Some (-5)
  else None.

Definition toy_capitalize (s : string) : string :=
  if bool_decide (s = "port") then "Port"
  else if bool_decide (s = "schedule") then "Schedule" else s.

Definition nothing_elsewhere (table : string) (id : Z)
    (s : database * gmap Z user_row)
  : failure + (database * gmap Z user_row) := inl (DbError UndefinedTable).

Definition owner_session : gmap string string :=
  <["user" := "owner@example.com"]> (<["role" := "owner"]> ∅).

(** ** Proof automation *)

Ltac unfold_handler :=
  unfold serve, update_schedule_status, try_except, transaction, apply_and_log,
    apply_stock_delta, update_ports, update_plants,
    write_status, log_activity, execute_query, cur_execute, conn_commit,
    on_exception, conn_rollback, sent, bind, ret, get_db.

(** Split on every call that may fail, in the order the calls are made. *)
Ltac fault_cases faults :=
  repeat (simpl; try done;
          match goal with
          | |- context [faults ?k] => destruct (faults k) eqn:?
          end).

(** Close the branch in which a call has failed: the rollback goes through
    or fails too. *)
Ltac rollback_cases :=
  match goal with
  | |- context [if ?f ?k then (Unhandled _, _) else _] => destruct (f k) eqn:?
  end.

Ltac after_failure := simpl; try done; rollback_cases; simpl; try done.

(** The branch of a failed call when the goal is the store as it was and
    the answer as the rollback, call [n], decides it. *)
Ltac rolled_back n :=
  simpl; split;
  [ by rollback_cases
  | exists n; split; [lia | by rollback_cases] ].

(** Membership in a literal list. *)
Ltac in_list :=
  match goal with
  | |- ?P => apply (@bool_decide_unpack P _); vm_compute; exact I
  end.

(** ** The guards *)

Lemma empty_not_recognized : "" ∉ recognized.
Proof.
  unfold recognized. intros H.
  by repeat (apply elem_of_cons in H as [?|H]; [done|]); apply elem_of_nil in H.
Qed.

Lemma completed_recognized : "completed" ∈ recognized.
Proof. in_list. Qed.

Lemma check_request_recognized session s :
  authorized session → s ∈ recognized →
  ∃ user, session !! "user" = Some user
          ∧ check_request session (Some s) = inr (user, s).
Proof.
  intros [[user Hu] Hr] Hs. exists user. split; [done|].
  unfold check_request. rewrite Hu, Hr. simpl.
  rewrite (bool_decide_true (s ∈ recognized)) by done.
  rewrite bool_decide_false; [done|].
  intros ->. by apply empty_not_recognized.
Qed.

Lemma check_request_unrecognized session ns :
  authorized session → unrecognized ns →
  check_request session ns = inl InvalidStatus.
Proof.
  intros [[user Hu] Hr] Hns. unfold check_request. rewrite Hu, Hr. simpl.
  destruct ns as [s|]; [|done].
  rewrite (bool_decide_false (s ∈ recognized)) by by apply Hns.
  by rewrite orb_true_r.
Qed.

Lemma check_request_inr session ns user s :
  check_request session ns = inr (user, s) →
  ns = Some s ∧ s ∈ recognized ∧ authorized session.
Proof.
  unfold check_request, authorized.
  destruct (session !! "user") as [u|]; [|done].
  destruct (can_edit_data (session !! "role")); simpl; [|done].
  destruct ns as [s'|]; [|done].
  case_bool_decide; simpl; [done|].
  case_bool_decide; simpl; [|done].
  intros [= -> ->]. eauto.
Qed.

Lemma check_request_inl session ns r :
  check_request session ns = inl r → r = Unauthorized ∨ r = InvalidStatus.
Proof. unfold check_request. repeat case_match; intros [= <-]; auto. Qed.

(** A request stopped by a guard sends nothing. *)
Lemma guarded_request_untouched faults session sid ns r c :
  check_request session ns = inl r →
  update_schedule_status faults session sid ns c = (r, c).
Proof. intros H. unfold update_schedule_status. by rewrite H. Qed.

(** ** Terminal and unknown schedules *)

Lemma terminal_rejected faults user sid s db sch :
  schedules db !! sid = Some sch → terminal (status sch) = true →
  serve (try_except (transaction faults user sid s) (on_exception faults)) db
  = (if faults 0%nat
     then if faults 1%nat then Unhandled StorageFailure else InternalError
     else InvalidTransition (status sch), db).
Proof.
  intros Hsch Hterm. unfold_handler. simpl.
  destruct (faults 0%nat); simpl; [by destruct (faults 1%nat)|].
  by rewrite Hsch, Hterm.
Qed.

Lemma unknown_rejected faults user sid s db :
  schedules db !! sid = None →
  serve (try_except (transaction faults user sid s) (on_exception faults)) db
  = (if faults 0%nat
     then if faults 1%nat then Unhandled StorageFailure else InternalError
     else NotFound, db).
Proof.
  intros Hsch. unfold_handler. simpl.
  destruct (faults 0%nat); simpl; [by destruct (faults 1%nat)|].
  by rewrite Hsch.
Qed.

Lemma serve_update faults session sid ns db user s :
  check_request session ns = inr (user, s) →
  serve (update_schedule_status faults session sid ns) db
  = serve (try_except (transaction faults user sid s) (on_exception faults)) db.
Proof. intros H. unfold serve, update_schedule_status. by rewrite H. Qed.

Lemma serve_guarded faults session sid ns db r :
  check_request session ns = inl r →
  serve (update_schedule_status faults session sid ns) db = (r, db).
Proof. intros H. unfold serve. by rewrite (guarded_request_untouched _ _ _ _ r). Qed.

(** C2 (as amended).  A schedule that is 'completed' or 'canceled' stays as
    it is, and so does every stock, whatever an authorized caller asks
    for: a recognized new status, the current one included, is answered
    with InvalidTransition unless the read itself fails; a value that is
    none of the five is answered with InvalidStatus, because the status
    is validated before the schedule is read. *)
Theorem terminal_schedule_rejects_transition faults session sid ns db sch :
  authorized session →
  schedules db !! sid = Some sch →
  terminal (status sch) = true →
  (serve (update_schedule_status faults session sid ns) db).2 = db
  ∧ (∀ s, ns = Some s → s ∈ recognized → faults 0%nat = false →
       (serve (update_schedule_status faults session sid ns) db).1
       = InvalidTransition (status sch))
  ∧ (unrecognized ns →
       (serve (update_schedule_status faults session sid ns) db).1
       = InvalidStatus).
Proof.
  intros Hauth Hsch Hterm. split_and!.
  - destruct (check_request session ns) as [r|[user s]] eqn:Hc.
    + by rewrite (serve_guarded _ _ _ _ _ r).
    + rewrite (serve_update _ _ _ _ _ user s) by done.
      by rewrite (terminal_rejected _ _ _ _ _ sch).
  - intros s -> Hs Hf.
    destruct (check_request_recognized session s) as (user & _ & Hc); [done..|].
    rewrite (serve_update _ _ _ _ _ user s) by done.
    rewrite (terminal_rejected _ _ _ _ _ sch) by done. by rewrite Hf.
  - intros Hns.
    by rewrite (serve_guarded _ _ _ _ _ InvalidStatus)
      by by apply check_request_unrecognized.
Qed.

Lemma terminal_schedule_rejects_transition_witness :
  serve (update_schedule_status no_faults manager_session 2 (Some "in-progress")) seed_db
  = (InvalidTransition "completed", seed_db).
Proof.
  destruct (terminal_schedule_rejects_transition no_faults manager_session 2
              (Some "in-progress") seed_db
              (Schedule "port-to-plant" (Some 1) (Some 2) (Some 1) None (Some 1)
                 2000 "2024-12-22" "completed" "system" "2025-01-01 00:00:00"))
    as (Hdb & Hresp & _).
  - split; [by eexists | vm_compute; reflexivity].
  - vm_compute; reflexivity.
  - vm_compute; reflexivity.
  - specialize (Hresp "in-progress" eq_refl).
    rewrite (surjective_pairing (serve _ _)), Hdb, Hresp; [reflexivity| |reflexivity].
    in_list.
Defined.

(** C2, counterexample.  Schedule #2 of the seed data is 'completed'; asked to
    move it to 'archived', which is none of the five, the handler answers
    InvalidStatus, which is not InvalidTransition. *)
Lemma C2_unrecognized_status_on_terminal_schedule :
  status <$> schedules seed_db !! 2 = Some "completed"
  ∧ authorized manager_session
  ∧ (serve (update_schedule_status no_faults manager_session 2 (Some "archived")) seed_db).1
    = InvalidStatus
  ∧ InvalidStatus ≠ InvalidTransition "completed".
Proof.
  split_and!; [vm_compute; reflexivity | | vm_compute; reflexivity | discriminate].
  split; [by eexists | vm_compute; reflexivity].
Qed.

(** C5 (as amended).  For a schedule id that is not in the ledger and an
    authorized caller: a recognized new status is answered with NotFound
    unless the read itself fails; a value that is none of the five is
    answered with InvalidStatus before anything is sent to the store,
    because the status is validated first.  Nothing changes either way. *)
Theorem unknown_schedule_not_found faults session sid ns db :
  authorized session →
  schedules db !! sid = None →
  (serve (update_schedule_status faults session sid ns) db).2 = db
  ∧ (∀ s, ns = Some s → s ∈ recognized → faults 0%nat = false →
       (serve (update_schedule_status faults session sid ns) db).1 = NotFound)
  ∧ (unrecognized ns →
       update_schedule_status faults session sid ns (get_db db)
       = (InvalidStatus, get_db db)).
Proof.
  intros Hauth Hsch. split_and!.
  - destruct (check_request session ns) as [r|[user s]] eqn:Hc.
    + by rewrite (serve_guarded _ _ _ _ _ r).
    + rewrite (serve_update _ _ _ _ _ user s) by done.
      by rewrite unknown_rejected.
  - intros s -> Hs Hf.
    destruct (check_request_recognized session s) as (user & _ & Hc); [done..|].
    rewrite (serve_update _ _ _ _ _ user s) by done.
    rewrite unknown_rejected by done. by rewrite Hf.
  - intros Hns. apply guarded_request_untouched.
    by apply check_request_unrecognized.
Qed.

Lemma unknown_schedule_not_found_witness :
  serve (update_schedule_status no_faults manager_session 99 (Some "delayed")) seed_db
  = (NotFound, seed_db).
Proof.
  destruct (unknown_schedule_not_found no_faults manager_session 99
              (Some "delayed") seed_db) as (Hdb & Hresp & _).
  - split; [by eexists | vm_compute; reflexivity].
  - vm_compute; reflexivity.
  - specialize (Hresp "delayed" eq_refl).
    rewrite (surjective_pairing (serve _ _)), Hdb, Hresp; [reflexivity| |reflexivity].
    in_list.
Defined.

(** C5, counterexample.  No schedule has id 99 in the seed data; with the
    new status 'archived' the handler answers InvalidStatus, not NotFound. *)
Lemma C5_unknown_schedule_unrecognized_status :
  schedules seed_db !! 99 = None
  ∧ authorized manager_session
  ∧ (serve (update_schedule_status no_faults manager_session 99 (Some "archived")) seed_db).1
    = InvalidStatus
  ∧ InvalidStatus ≠ NotFound.
Proof.
  split_and!; [vm_compute; reflexivity | | vm_compute; reflexivity | discriminate].
  split; [by eexists | vm_compute; reflexivity].
Qed.

(** ** Completions *)

(** C4.  A successful transition to 'completed' of a non-terminal
    'vessel-to-port' schedule of quantity Q raises the current_stock of the
    port it references by exactly Q and changes nothing else of that row,
    leaves every other port and every plant as it was, and sets the
    schedule's status to 'completed'. *)
Theorem vessel_to_port_completion faults session sid db sch p rp db' :
  schedules db !! sid = Some sch →
  terminal (status sch) = false →
  type sch = "vessel-to-port" →
  port_id sch = Some p →
  ports db !! p = Some rp →
  serve (update_schedule_status faults session sid (Some "completed")) db
    = (Updated sid "completed", db') →
  ports db' !! p = Some (with_current_stock (current_stock rp + quantity sch) rp)
  ∧ (∀ i, i ≠ p → ports db' !! i = ports db !! i)
  ∧ plants db' = plants db
  ∧ schedules db' !! sid = Some (with_status "completed" sch).
Proof.
  intros Hsch Hterm Hty Hp Hrp.
  destruct (check_request session (Some "completed")) as [r|[user s]] eqn:Hc.
  { rewrite (serve_guarded _ _ _ _ _ r) by done.
    apply check_request_inl in Hc as [-> | ->]; done. }
  rewrite (serve_update _ _ _ _ _ user s) by done.
  apply check_request_inr in Hc as ([= <-] & _ & _).
  unfold_handler. simpl.
  destruct (faults 0%nat); simpl; [by after_failure|].
  rewrite Hsch, Hterm. simpl. rewrite Hty. simpl.
  destruct (faults 1%nat); simpl; [by after_failure|].
  unfold add_stock. rewrite Hp, Hrp.
  destruct (int4 _); simpl; [|by after_failure].
  fault_cases faults.
  intros [= <-]. simpl.
  rewrite lookup_insert_eq. split_and!; try done.
  - intros i Hi. by rewrite lookup_insert_ne.
  - unfold set_status. rewrite lookup_alter, decide_True by done. by rewrite Hsch.
Qed.

Lemma vessel_to_port_completion_witness :
  let db' := (serve (update_schedule_status no_faults manager_session 1
                       (Some "completed")) seed_db).2 in
  current_stock <$> ports seed_db !! 1 = Some 5000
  ∧ current_stock <$> ports db' !! 1 = Some 10000
  ∧ status <$> schedules db' !! 1 = Some "completed".
Proof.
  intros db'.
  destruct (vessel_to_port_completion no_faults manager_session 1 seed_db
              (Schedule "vessel-to-port" (Some 1) (Some 1) None (Some 1) None
                 5000 "2025-01-06" "scheduled" "system" "2025-01-01 00:00:00")
              1 (seed_site "Port X" 10000 5000) db')
    as (Hport & _ & _ & Hstatus); try (vm_compute; reflexivity).
  rewrite Hport, Hstatus. split_and!; vm_compute; reflexivity.
Defined.

(** C3.  A successful transition to 'completed' of a non-terminal
    'port-to-plant' schedule of quantity Q lowers the current_stock of the
    port it references by exactly Q and raises that of the plant it
    references by exactly Q, so the two stocks add up to what they did
    before; every other port and plant is as it was. *)
Theorem port_to_plant_completion faults session sid db sch p rp pl rpl db' :
  schedules db !! sid = Some sch →
  terminal (status sch) = false →
  type sch = "port-to-plant" →
  port_id sch = Some p →
  ports db !! p = Some rp →
  plant_id sch = Some pl →
  plants db !! pl = Some rpl →
  serve (update_schedule_status faults session sid (Some "completed")) db
    = (Updated sid "completed", db') →
  ports db' !! p = Some (with_current_stock (current_stock rp - quantity sch) rp)
  ∧ plants db' !! pl = Some (with_current_stock (current_stock rpl + quantity sch) rpl)
  ∧ (∀ r r', ports db' !! p = Some r → plants db' !! pl = Some r' →
             current_stock r + current_stock r'
             = current_stock rp + current_stock rpl)
  ∧ (∀ i, i ≠ p → ports db' !! i = ports db !! i)
  ∧ (∀ i, i ≠ pl → plants db' !! i = plants db !! i).
Proof.
  intros Hsch Hterm Hty Hp Hrp Hpl Hrpl.
  destruct (check_request session (Some "completed")) as [r|[user s]] eqn:Hc.
  { rewrite (serve_guarded _ _ _ _ _ r) by done.
    apply check_request_inl in Hc as [-> | ->]; done. }
  rewrite (serve_update _ _ _ _ _ user s) by done.
  apply check_request_inr in Hc as ([= <-] & _ & _).
  unfold_handler. simpl.
  destruct (faults 0%nat); simpl; [by after_failure|].
  rewrite Hsch, Hterm. simpl. rewrite Hty. simpl.
  destruct (faults 1%nat); simpl; [by after_failure|].
  unfold add_stock at 1. rewrite Hp, Hrp.
  destruct (int4 _); simpl; [|by after_failure].
  destruct (faults 2%nat); simpl; [by after_failure|].
  unfold add_stock. rewrite Hpl, Hrpl.
  destruct (int4 _); simpl; [|by after_failure].
  fault_cases faults.
  intros [= <-]. simpl.
  rewrite !lookup_insert_eq. split_and!; try done.
  - intros r r' [= <-] [= <-]. simpl. lia.
  - intros i Hi. by rewrite lookup_insert_ne.
  - intros i Hi. by rewrite lookup_insert_ne.
Qed.

(** The seed data with schedule #2 put back to 'scheduled'. *)
Lemma port_to_plant_completion_witness :
  let db := with_schedules (set_status "scheduled" 2 (schedules seed_db)) seed_db in
  let db' := (serve (update_schedule_status no_faults manager_session 2
                       (Some "completed")) db).2 in
  current_stock <$> ports db !! 2 = Some 8000
  ∧ current_stock <$> plants db !! 1 = Some 2000
  ∧ current_stock <$> ports db' !! 2 = Some 6000
  ∧ current_stock <$> plants db' !! 1 = Some 4000.
Proof.
  intros db db'.
  destruct (port_to_plant_completion no_faults manager_session 2 db
              (Schedule "port-to-plant" (Some 1) (Some 2) (Some 1) None (Some 1)
                 2000 "2024-12-22" "scheduled" "system" "2025-01-01 00:00:00")
              2 (seed_site "Port Y" 15000 8000)
              1 (seed_site "Plant 1" 5000 2000) db')
    as (Hport & Hplant & _); try (vm_compute; reflexivity).
  rewrite Hport, Hplant. split_and!; vm_compute; reflexivity.
Defined.

(** C10.  When no call to the store fails, an authorized transition to
    'completed' of a non-terminal schedule whose type is neither
    'vessel-to-port' nor 'port-to-plant' succeeds: the status becomes
    'completed', the rest of the schedule's row is as before, and no port
    or plant row changes. *)
Theorem other_type_completion_has_no_stock_effect session sid db sch :
  authorized session →
  schedules db !! sid = Some sch →
  terminal (status sch) = false →
  type sch ≠ "vessel-to-port" →
  type sch ≠ "port-to-plant" →
  ∃ db', serve (update_schedule_status no_faults session sid (Some "completed")) db
         = (Updated sid "completed", db')
         ∧ schedules db' !! sid = Some (with_status "completed" sch)
         ∧ status <$> schedules db' !! sid = Some "completed"
         ∧ ports db' = ports db
         ∧ plants db' = plants db.
Proof.
  intros Hauth Hsch Hterm Hv Hp.
  destruct (check_request_recognized session "completed") as (user & _ & Hc);
    [done | apply completed_recognized |].
  rewrite (serve_update _ _ _ _ _ user "completed") by done.
  unfold_handler. simpl.
  rewrite Hsch, Hterm. simpl.
  rewrite !bool_decide_false by done. simpl.
  assert (Hrow : set_status "completed" sid (schedules db) !! sid
                 = Some (with_status "completed" sch)).
  { unfold set_status. rewrite lookup_alter, decide_True by done. by rewrite Hsch. }
  eexists. split_and!; [reflexivity | exact Hrow | | done..].
  simpl. by rewrite Hrow.
Qed.

(** The seed data with schedule #1 given the type 'rail-to-plant': the
    completion succeeds, the row reads 'completed' and Port X, which the
    schedule points at, still holds 5000. *)
Lemma other_type_completion_has_no_stock_effect_witness :
  let sch := Schedule "rail-to-plant" (Some 1) (Some 1) None (Some 1) None
               5000 "2025-01-06" "scheduled" "system" "2025-01-01 00:00:00" in
  let db := with_schedules (<[1 := sch]> (schedules seed_db)) seed_db in
  ∃ db', serve (update_schedule_status no_faults manager_session 1 (Some "completed")) db
         = (Updated 1 "completed", db')
         ∧ schedules db' !! 1
           = Some (Schedule "rail-to-plant" (Some 1) (Some 1) None (Some 1) None
                     5000 "2025-01-06" "completed" "system" "2025-01-01 00:00:00")
         ∧ status <$> schedules db' !! 1 = Some "completed"
         ∧ current_stock <$> ports db' !! 1 = Some 5000
         ∧ ports db' = ports db
         ∧ plants db' = plants db.
Proof.
  intros sch db.
  destruct (other_type_completion_has_no_stock_effect manager_session 1 db sch)
    as (db' & Hserve & Hrow & Hstatus & Hports & Hplants).
  - split; [by eexists | vm_compute; reflexivity].
  - vm_compute; reflexivity.
  - vm_compute; reflexivity.
  - discriminate.
  - discriminate.
  - exists db'. split_and!; [exact Hserve | | exact Hstatus | | exact Hports | exact Hplants].
    + rewrite Hrow. reflexivity.
    + rewrite Hports. vm_compute; reflexivity.
Defined.

(** ** Transitions that are not completions *)

(** C8.  An authorized transition of a non-terminal schedule to a
    recognized status other than 'completed' leaves every port and plant
    row and every other schedule as they were, and of the schedule itself
    changes at most the status: when the handler reports success the
    status is the new one and every other field is as before; when no call
    to the store fails it does report success. *)
Theorem other_status_writes_status_only faults session sid s db sch :
  authorized session →
  schedules db !! sid = Some sch →
  terminal (status sch) = false →
  s ∈ recognized →
  s ≠ "completed" →
  let out := serve (update_schedule_status faults session sid (Some s)) db in
  ports out.2 = ports db
  ∧ plants out.2 = plants db
  ∧ stock_levels out.2 = stock_levels db
  ∧ (∀ i, i ≠ sid → schedules out.2 !! i = schedules db !! i)
  ∧ (schedules out.2 !! sid = Some sch
     ∨ schedules out.2 !! sid = Some (with_status s sch))
  ∧ (out.1 = Updated sid s → schedules out.2 !! sid = Some (with_status s sch))
  ∧ ((∀ k, faults k = false) → out.1 = Updated sid s).
Proof.
  intros Hauth Hsch Hterm Hs Hne.
  destruct (check_request_recognized session s) as (user & _ & Hc); [done..|].
  rewrite (serve_update _ _ _ _ _ user s) by done.
  assert (Hset : set_status s sid (schedules db) !! sid = Some (with_status s sch)).
  { unfold set_status. rewrite lookup_alter, decide_True by done. by rewrite Hsch. }
  assert (Hother : ∀ i, i ≠ sid → set_status s sid (schedules db) !! i = schedules db !! i).
  { intros i Hi. unfold set_status. by rewrite lookup_alter, decide_False. }
  unfold_handler. simpl.
  destruct (faults 0%nat) eqn:H0; simpl.
  { rollback_cases; simpl; (split_and!; auto; try done); intros Hall; by rewrite Hall in H0. }
  rewrite Hsch, Hterm. simpl. rewrite (bool_decide_false (s = "completed")) by done.
  simpl.
  destruct (faults 1%nat) eqn:H1; simpl.
  { rollback_cases; simpl; (split_and!; auto; try done); intros Hall; by rewrite Hall in H1. }
  destruct (faults 2%nat) eqn:H2; simpl.
  { rollback_cases; simpl; (split_and!; auto; try done); intros Hall; by rewrite Hall in H2. }
  destruct (faults 3%nat) eqn:H3; simpl.
  { rollback_cases; simpl; (split_and!; auto; try done); intros Hall; by rewrite Hall in H3. }
  destruct (faults 4%nat) eqn:H4; simpl.
  { rollback_cases; simpl; (split_and!; auto; try done); intros Hall; by rewrite Hall in H4. }
  split_and!; auto; done.
Qed.

Lemma other_status_writes_status_only_witness :
  let out := serve (update_schedule_status no_faults manager_session 1
                      (Some "delayed")) seed_db in
  out.1 = Updated 1 "delayed"
  ∧ ports out.2 = ports seed_db
  ∧ plants out.2 = plants seed_db
  ∧ status <$> schedules out.2 !! 1 = Some "delayed".
Proof.
  intros out.
  destruct (other_status_writes_status_only no_faults manager_session 1 "delayed"
              seed_db
              (Schedule "vessel-to-port" (Some 1) (Some 1) None (Some 1) None
                 5000 "2025-01-06" "scheduled" "system" "2025-01-01 00:00:00"))
    as (Hports & Hplants & _ & _ & _ & Hstatus & Hok).
  - split; [by eexists | vm_compute; reflexivity].
  - vm_compute; reflexivity.
  - vm_compute; reflexivity.
  - in_list.
  - discriminate.
  - fold out in Hports, Hplants, Hstatus, Hok.
    specialize (Hok (λ _, eq_refl)). specialize (Hstatus Hok).
    split_and!; [exact Hok | exact Hports | exact Hplants |].
    rewrite Hstatus. reflexivity.
Defined.

(** ** Stock bounds *)

Lemma add_stock_within delta id t t' :
  map_Forall (λ _, within_capacity) t →
  (∀ i r, id = Some i → t !! i = Some r →
          0 ≤ current_stock r + delta ≤ capacity r) →
  add_stock delta id t = inr t' →
  map_Forall (λ _, within_capacity) t'.
Proof.
  intros Ht Hfit. unfold add_stock.
  destruct id as [i|]; [|by intros [= <-]].
  destruct (t !! i) as [r|] eqn:Hr; [|by intros [= <-]].
  destruct (int4 _); [|by after_failure]. intros [= <-].
  apply map_Forall_insert_2; [|done].
  unfold within_capacity. simpl. by apply (Hfit i r).
Qed.

(** C6 (as amended).  The handler has no capacity or negative-stock guard.
    A status transition keeps every port and plant within
    0 <= current_stock <= capacity provided that, when it is a completion
    of a non-terminal schedule, the schedule's delta fits the rows it
    touches ([delta_fits]); this holds whichever calls to the store fail. *)
Theorem stock_bounds_preserved_when_delta_fits faults session sid ns db :
  stock_bounds db →
  (∀ sch, ns = Some "completed" → schedules db !! sid = Some sch →
          terminal (status sch) = false → delta_fits sch db) →
  stock_bounds (serve (update_schedule_status faults session sid ns) db).2.
Proof.
  intros Hinv Hfit.
  destruct (check_request session ns) as [r|[user s]] eqn:Hc.
  { by rewrite (serve_guarded _ _ _ _ _ r). }
  rewrite (serve_update _ _ _ _ _ user s) by done.
  apply check_request_inr in Hc as (-> & _ & _).
  unfold_handler. simpl.
  destruct (faults 0%nat); simpl; [by after_failure|].
  destruct (schedules db !! sid) as [sch|] eqn:Hsch; simpl; [|done].
  destruct (terminal (status sch)) eqn:Hterm; simpl; [done|].
  case_bool_decide as Hs; simpl.
  - subst s. specialize (Hfit sch eq_refl eq_refl Hterm).
    unfold delta_fits in Hfit. destruct Hinv as [Hports Hplants].
    case_bool_decide as Hv; simpl.
    + destruct (faults 1%nat); simpl; [by after_failure|].
      destruct (add_stock _ _ (ports db)) as [e|t] eqn:Ha; simpl; [by after_failure|].
      assert (map_Forall (λ _, within_capacity) t)
        by (eapply add_stock_within; [exact Hports | | exact Ha]; eauto).
      fault_cases faults; by split.
    + case_bool_decide as Hp; simpl.
      * destruct Hfit as [Hfit_port Hfit_plant].
        destruct (faults 1%nat); simpl; [by after_failure|].
        destruct (add_stock _ _ (ports db)) as [e|t] eqn:Ha; simpl; [by after_failure|].
        assert (map_Forall (λ _, within_capacity) t)
          by (eapply add_stock_within; [exact Hports | | exact Ha]; eauto).
        destruct (faults 2%nat); simpl; [by after_failure|].
        destruct (add_stock _ _ (plants db)) as [e|t2] eqn:Ha2; simpl; [by after_failure|].
        assert (map_Forall (λ _, within_capacity) t2)
          by (eapply add_stock_within; [exact Hplants | | exact Ha2]; eauto).
        fault_cases faults; by split.
      * fault_cases faults; by split.
  - fault_cases faults; exact Hinv.
Qed.

Lemma seed_db_within_bounds : stock_bounds seed_db.
Proof.
  split; simpl;
    repeat (apply map_Forall_insert_2; [unfold within_capacity; simpl; lia|]);
    apply map_Forall_empty.
Qed.

Lemma stock_bounds_preserved_when_delta_fits_witness :
  stock_bounds (serve (update_schedule_status no_faults manager_session 1
                         (Some "completed")) seed_db).2.
Proof.
  apply (stock_bounds_preserved_when_delta_fits no_faults manager_session 1
           (Some "completed") seed_db).
  - split; simpl;
      repeat (apply map_Forall_insert_2; [unfold within_capacity; simpl; lia|]);
      apply map_Forall_empty.
  - intros sch _ Hsch _. vm_compute in Hsch. injection Hsch as <-.
    unfold delta_fits. simpl.
    intros p r [= <-] Hr. vm_compute in Hr. injection Hr as <-. simpl. lia.
Defined.

(** C6, counterexample.  In the seed data every port and plant is within
    its bounds.  Completing schedule #3 (7500 into Port Y, which holds 8000
    of 15000) succeeds and leaves Port Y at 15500. *)
Lemma C6_completion_exceeds_capacity :
  let out := serve (update_schedule_status no_faults manager_session 3
                      (Some "completed")) seed_db in
  stock_bounds seed_db
  ∧ out.1 = Updated 3 "completed"
  ∧ (capacity <$> ports out.2 !! 2 = Some 15000
     ∧ current_stock <$> ports out.2 !! 2 = Some 15500)
  ∧ ¬ stock_bounds out.2.
Proof.
  intros out. split_and!; [apply seed_db_within_bounds | vm_compute; reflexivity..|].
  intros [Hports _].
  assert (Hrow : ports out.2 !! 2 = Some (seed_site "Port Y" 15000 15500))
    by (vm_compute; reflexivity).
  apply Hports in Hrow. unfold within_capacity in Hrow. simpl in Hrow. lia.
Qed.

(** ** One request after another, and two at once *)

(** A transition that reports success has written the new status. *)
Lemma updated_status faults user sid s db db1 :
  serve (try_except (transaction faults user sid s) (on_exception faults)) db
    = (Updated sid s, db1) →
  ∃ sch, schedules db !! sid = Some sch
         ∧ schedules db1 !! sid = Some (with_status s sch).
Proof.
  unfold_handler. simpl.
  destruct (faults 0%nat); simpl; [by after_failure|].
  destruct (schedules db !! sid) as [sch|] eqn:Hsch; simpl; [|done].
  destruct (terminal (status sch)); simpl; [done|].
  assert (Hset : set_status s sid (schedules db) !! sid = Some (with_status s sch)).
  { unfold set_status. rewrite lookup_alter, decide_True by done. by rewrite Hsch. }
  case_bool_decide; simpl.
  - case_bool_decide; simpl; [|case_bool_decide; simpl].
    + destruct (faults 1%nat); simpl; [by after_failure|].
      destruct (add_stock _ _ _); simpl; [by after_failure|].
      fault_cases faults. intros [= <-]. eauto.
    + destruct (faults 1%nat); simpl; [by after_failure|].
      destruct (add_stock _ _ _); simpl; [by after_failure|].
      destruct (faults 2%nat); simpl; [by after_failure|].
      destruct (add_stock _ _ _); simpl; [by after_failure|].
      fault_cases faults. intros [= <-]. eauto.
    + fault_cases faults. intros [= <-]. eauto.
  - fault_cases faults. intros [= <-]. eauto.
Qed.

Lemma completed_terminal sch : terminal (status (with_status "completed" sch)) = true.
Proof. reflexivity. Qed.

(** C7 (as amended).  When the completion is requested a second time after
    the first request has been answered with success, the second request
    is answered with InvalidTransition and leaves the store exactly as the
    first left it, so the stock delta is applied once.  (The handler takes
    no lock and makes no compare-and-set on the status: requests that
    overlap are not covered.) *)
Theorem sequential_completions_apply_once f1 f2 session1 session2 sid db db1 :
  serve (update_schedule_status f1 session1 sid (Some "completed")) db
    = (Updated sid "completed", db1) →
  authorized session2 →
  f2 0%nat = false →
  serve (update_schedule_status f2 session2 sid (Some "completed")) db1
    = (InvalidTransition "completed", db1).
Proof.
  intros Hfirst Hauth Hf.
  destruct (check_request session1 (Some "completed")) as [r|[user s]] eqn:Hc.
  { rewrite (serve_guarded _ _ _ _ _ r) in Hfirst by done.
    apply check_request_inl in Hc as [-> | ->]; done. }
  rewrite (serve_update _ _ _ _ _ user s) in Hfirst by done.
  apply check_request_inr in Hc as ([= <-] & _ & _).
  apply updated_status in Hfirst as (sch & _ & Hdone).
  destruct (check_request_recognized session2 "completed") as (user2 & _ & Hc2);
    [done | apply completed_recognized |].
  rewrite (serve_update _ _ _ _ _ user2 "completed") by done.
  rewrite (terminal_rejected _ _ _ _ _ (with_status "completed" sch)) by done.
  by rewrite Hf.
Qed.

Lemma sequential_completions_apply_once_witness :
  let db1 := (serve (update_schedule_status no_faults manager_session 1
                       (Some "completed")) seed_db).2 in
  current_stock <$> ports db1 !! 1 = Some 10000
  ∧ serve (update_schedule_status no_faults manager_session 1 (Some "completed")) db1
    = (InvalidTransition "completed", db1).
Proof.
  intros db1. split; [vm_compute; reflexivity|].
  apply (sequential_completions_apply_once no_faults no_faults manager_session
           manager_session 1 seed_db db1).
  - vm_compute; reflexivity.
  - split; [by eexists | vm_compute; reflexivity].
  - reflexivity.
Defined.

(** A request whose transactions run with nothing in between is the
    handler run on one connection. *)
Lemma alone_is_serve a b pb db :
  interleave a b [true; true] NotStarted pb db
  = let '(r, db') := serve (update_schedule_status no_faults (req_session a)
                              (req_schedule_id a) (req_new_status a)) db in
    (Answered r, pb, db').
Proof.
  destruct a as [session sid ns]. simpl.
  destruct (check_request session ns) as [r|[user s]] eqn:Hc.
  { by rewrite (serve_guarded _ _ _ _ _ r). }
  rewrite (serve_update _ _ _ _ _ user s) by done.
  unfold_handler. simpl.
  destruct (schedules db !! sid) as [sch|]; simpl; [|done].
  destruct (terminal (status sch)); simpl; [done|].
  case_bool_decide; simpl; [|done].
  case_bool_decide; simpl; [|case_bool_decide; simpl].
  - destruct (add_stock _ _ _); simpl; done.
  - destruct (add_stock _ _ _); simpl; [by after_failure|].
    destruct (add_stock _ _ _); simpl; done.
  - done.
Qed.

(** C7, counterexample.  Two requests to complete schedule #1 of the seed
    data (5000 into Port X, which holds 5000) whose transactions alternate:
    each reads the status before the other has written it, both are
    answered with success and Port X ends at 15000, the delta applied
    twice. *)
Lemma C7_interleaved_completions_apply_twice :
  let rq := Request manager_session 1 (Some "completed") in
  let out := interleave rq rq [true; false; true; false]
               NotStarted NotStarted seed_db in
  quantity <$> schedules seed_db !! 1 = Some 5000
  ∧ current_stock <$> ports seed_db !! 1 = Some 5000
  ∧ out.1.1 = Answered (Updated 1 "completed")
  ∧ out.1.2 = Answered (Updated 1 "completed")
  ∧ current_stock <$> ports out.2 !! 1 = Some (5000 + 2 * 5000).
Proof. split_and!; vm_compute; reflexivity. Qed.

(** ** A failure after the log *)

(** C1, at the failing input.  Schedule #1 of the seed data is completed
    and the status write, the fifth call of the request, fails: the
    handler answers InternalError and rolls back, but the commit made by
    [log_activity] has already stored the stock delta.  Port X holds 10000
    instead of 5000 while the schedule is still 'scheduled'. *)
Theorem C1_status_write_failure_keeps_stock_delta :
  let faults := λ k : nat, bool_decide (k = 4%nat) in
  let out := serve (update_schedule_status faults manager_session 1
                      (Some "completed")) seed_db in
  current_stock <$> ports seed_db !! 1 = Some 5000
  ∧ status <$> schedules seed_db !! 1 = Some "scheduled"
  ∧ out.1 = InternalError
  ∧ status <$> schedules out.2 !! 1 = Some "scheduled"
  ∧ current_stock <$> ports out.2 !! 1 = Some 10000.
Proof. split_and!; vm_compute; reflexivity. Qed.

(** What the rollback does cover: a failure up to and including the
    commit of the log leaves the store as it was. *)
Lemma failure_before_log_commit_rolls_back faults user sid db sch :
  schedules db !! sid = Some sch →
  terminal (status sch) = false →
  type sch = "vessel-to-port" →
  faults 0%nat = true ∨ faults 1%nat = true ∨ faults 2%nat = true
  ∨ faults 3%nat = true →
  (serve (try_except (transaction faults user sid "completed")
            (on_exception faults)) db).2 = db.
Proof.
  intros Hsch Hterm Hty Hf. unfold_handler. simpl.
  destruct (faults 0%nat); simpl; [by after_failure|].
  rewrite Hsch, Hterm. simpl. rewrite Hty. simpl.
  destruct (faults 1%nat); simpl; [by after_failure|].
  destruct (add_stock _ _ _); simpl; [by after_failure|].
  destruct (faults 2%nat); simpl; [by after_failure|].
  destruct (faults 3%nat); simpl; [by after_failure|].
  by destruct Hf as [?|[?|[?|?]]].
Qed.

(** ** Export *)

(** C9.  [export_data] sends nothing to the store for a data type other
    than 'schedules' and 'stock_levels', and answers a logged-in caller
    with 'Invalid data type'; for each of the two, when the query and its
    commit do not fail, it has sent exactly the SELECT on that table and
    answers a logged-in caller with that table as an attachment named
    after it: nothing for an empty table, else the table's column names
    as the header and one row per row of the table, holding that row's id
    and columns. *)
Theorem export_data_allowlist faults dict_writer session data_type :
  (data_type ∉ ["schedules"; "stock_levels"] →
   ∀ c, (export_data faults dict_writer session data_type c).2 = c
        ∧ (is_Some (session !! "user") →
           (export_data faults dict_writer session data_type c).1
           = Text "Invalid data type" 400))
  ∧ (is_Some (session !! "user") →
     faults 0%nat = false → faults 1%nat = false →
     ∀ db,
       export_data faults dict_writer session "schedules" (get_db db)
       = (CsvAttachment
            (if decide (schedules db = ∅) then ""
             else dict_writer
                    ["id"; "type"; "supplier_id"; "port_id"; "plant_id";
                     "vessel_id"; "rake_id"; "quantity"; "scheduled_date";
                     "status"; "created_by"; "created_at"]
                    (schedule_row <$> map_to_list (schedules db)))
            "schedules.csv",
          {| committed := db; working := db;
             issued := [SelectAll "schedules"; Commit] |})
       ∧ export_data faults dict_writer session "stock_levels" (get_db db)
         = (CsvAttachment
              (if decide (stock_levels db = ∅) then ""
               else dict_writer
                      ["id"; "port_id"; "plant_id"; "stock_level"; "timestamp"]
                      (stock_level_row <$> map_to_list (stock_levels db)))
              "stock_levels.csv",
            {| committed := db; working := db;
               issued := [SelectAll "stock_levels"; Commit] |})
       ∧ (∀ i r,
            schedules db !! i = Some r ↔
            [("id", Int i); ("type", Str (type r));
             ("supplier_id", nullable (supplier_id r));
             ("port_id", nullable (port_id r));
             ("plant_id", nullable (plant_id r));
             ("vessel_id", nullable (vessel_id r));
             ("rake_id", nullable (rake_id r));
             ("quantity", Int (quantity r));
             ("scheduled_date", Str (scheduled_date r));
             ("status", Str (status r));
             ("created_by", Str (created_by r));
             ("created_at", Str (created_at r))]
            ∈ schedule_row <$> map_to_list (schedules db))
       ∧ (∀ i r,
            stock_levels db !! i = Some r ↔
            [("id", Int i);
             ("port_id", nullable (sl_port_id r));
             ("plant_id", nullable (sl_plant_id r));
             ("stock_level", Int (sl_stock_level r));
             ("timestamp", Str (sl_timestamp r))]
            ∈ stock_level_row <$> map_to_list (stock_levels db))
       ∧ length (schedule_row <$> map_to_list (schedules db))
         = size (schedules db)
       ∧ length (stock_level_row <$> map_to_list (stock_levels db))
         = size (stock_levels db)).
Proof.
  split.
  - intros Hdt c. unfold export_data.
    rewrite (bool_decide_false (data_type ∈ _)) by done. simpl.
    split; [by destruct (session !! "user")|]. by intros [u ->].
  - intros [u Hu] H0 H1 db. split_and!.
    + unfold export_data, execute_query, cur_execute, conn_commit, bind, ret,
        sent, get_db. rewrite Hu. simpl. rewrite H0. simpl. rewrite H1.
      case_decide as Hempty.
      * by rewrite Hempty, map_to_list_empty.
      * destruct (map_to_list (schedules db)) as [|kv rest] eqn:Hl; [|done].
        by apply map_to_list_empty_iff in Hl.
    + unfold export_data, execute_query, cur_execute, conn_commit, bind, ret,
        sent, get_db. rewrite Hu. simpl. rewrite H0. simpl. rewrite H1.
      case_decide as Hempty.
      * by rewrite Hempty, map_to_list_empty.
      * destruct (map_to_list (stock_levels db)) as [|kv rest] eqn:Hl; [|done].
        by apply map_to_list_empty_iff in Hl.
    + intros i r. rewrite list_elem_of_fmap. split.
      * intros Hr. exists (i, r). split; [done|]. by apply elem_of_map_to_list.
      * intros ([j r'] & Hrow & Hin). apply elem_of_map_to_list in Hin.
        unfold schedule_row in Hrow. simpl in Hrow.
        destruct r, r'. simpl in *.
        repeat match goal with
               | o : option Z |- _ => destruct o
               end; simpl in *; by simplify_eq.
    + intros i r. rewrite list_elem_of_fmap. split.
      * intros Hr. exists (i, r). split; [done|]. by apply elem_of_map_to_list.
      * intros ([j r'] & Hrow & Hin). apply elem_of_map_to_list in Hin.
        unfold stock_level_row in Hrow. simpl in Hrow.
        destruct r, r'. simpl in *.
        repeat match goal with
               | o : option Z |- _ => destruct o
               end; simpl in *; by simplify_eq.
    + by rewrite length_fmap, length_map_to_list.
    + by rewrite length_fmap, length_map_to_list.
Qed.

(** 'users' is refused with nothing sent; 'schedules' gives the three seed
    schedules under the twelve column names. *)
Lemma export_data_allowlist_witness :
  (export_data no_faults plain_writer manager_session "users" (get_db seed_db)
   = (Text "Invalid data type" 400, get_db seed_db))
  ∧ export_data no_faults plain_writer manager_session "schedules" (get_db seed_db)
    = (CsvAttachment
         (String.concat (String (Ascii.ascii_of_nat 10) "")
            ["id,type,supplier_id,port_id,plant_id,vessel_id,rake_id,quantity,scheduled_date,status,created_by,created_at";
             "3,vessel-to-port,1,2,,1,,7500,2025-01-03,in-progress,system,2025-01-01 00:00:00";
             "2,port-to-plant,1,2,1,,1,2000,2024-12-22,completed,system,2025-01-01 00:00:00";
             "1,vessel-to-port,1,1,,1,,5000,2025-01-06,scheduled,system,2025-01-01 00:00:00"])
         "schedules.csv",
       {| committed := seed_db; working := seed_db;
          issued := [SelectAll "schedules"; Commit] |}).
Proof.
  destruct (export_data_allowlist no_faults plain_writer manager_session "users")
    as [Hreject Hexport].
  split.
  - assert (Hdt : "users" ∉ ["schedules"; "stock_levels"]).
    { intros Hin. apply (bool_decide_pack _) in Hin. vm_compute in Hin. exact Hin. }
    destruct (Hreject Hdt (get_db seed_db)) as [Hconn Hresp].
    rewrite (surjective_pairing (export_data _ _ _ _ _)), Hconn, Hresp;
      [reflexivity | by eexists].
  - destruct (Hexport (ltac:(by eexists)) eq_refl eq_refl seed_db) as [-> _].
    vm_compute; reflexivity.
Defined.

(** ** Access policy *)

(** X1.  Whoever may manage locations may also edit data: [is_owner]
    implies [can_edit_data].  A request without a role, and the role
    'user' that signup gives, pass neither gate. *)
Theorem owner_tier_can_edit :
  (∀ role, is_owner role = true → can_edit_data role = true)
  ∧ can_edit_data None = false
  ∧ can_edit_data (Some "user") = false
  ∧ (∀ role, can_edit_data role = true ∧ is_owner role = false
             ↔ role = Some "manager").
Proof.
  split_and!; [| done | done |].
  - intros [r|]; [|done]. unfold is_owner, can_edit_data.
    rewrite !bool_decide_eq_true, !elem_of_cons, !elem_of_nil.
    intros [->|[->|[]]]; auto.
  - intros [r|]; unfold is_owner, can_edit_data.
    + rewrite bool_decide_eq_true, bool_decide_eq_false, !elem_of_cons,
        !elem_of_nil. split.
      * intros [[->|[->|[->|[]]]] Hno]; [exfalso; apply Hno; auto..|done].
      * intros [= ->]. split; [auto|]. intros [?|[?|[]]]; done.
    + split; [by intros [? _]|done].
Qed.

Lemma owner_tier_can_edit_witness :
  is_owner (Some "admin") = true ∧ can_edit_data (Some "admin") = true.
Proof.
  split; [reflexivity|].
  apply (proj1 owner_tier_can_edit (Some "admin")). reflexivity.
Defined.

(** X2.  A caller who is not logged in, or whose role is none of admin,
    owner and manager, is answered with Unauthorized whatever the schedule
    and the new status, and nothing is sent to the store. *)
Theorem unauthorized_request_is_refused faults session sid ns c :
  ¬ authorized session →
  update_schedule_status faults session sid ns c = (Unauthorized, c).
Proof.
  intros Hno. unfold update_schedule_status, check_request.
  destruct (session !! "user") as [u|] eqn:Hu; [|done].
  destruct (can_edit_data (session !! "role")) eqn:Hr; [|done].
  destruct Hno. split; [by eexists | done].
Qed.

Lemma unauthorized_request_is_refused_witness :
  let session : gmap string string :=
    <["user" := "someone@example.com"]> (<["role" := "user"]> ∅) in
  update_schedule_status no_faults session 1 (Some "completed") (get_db seed_db)
  = (Unauthorized, get_db seed_db).
Proof.
  intros session.
  apply (unauthorized_request_is_refused no_faults session 1 (Some "completed")
           (get_db seed_db)).
  intros [_ Hrole]. vm_compute in Hrole. discriminate Hrole.
Defined.

(** ** What a status transition can and cannot change *)

Lemma add_stock_frame delta id t t' :
  add_stock delta id t = inr t' →
  ∀ i, with_current_stock 0 <$> t' !! i = with_current_stock 0 <$> t !! i.
Proof.
  unfold add_stock.
  destruct id as [j|]; [|by intros [= <-]].
  destruct (t !! j) as [r|] eqn:Hr; [|by intros [= <-]].
  destruct (int4 _); [|by after_failure]. intros [= <-] i.
  destruct (decide (j = i)) as [->|Hne].
  - by rewrite lookup_insert_eq, Hr.
  - by rewrite lookup_insert_ne.
Qed.

(** Every way a request can leave the store. *)
Lemma transition_outcomes faults session sid ns db :
  let db' := (serve (update_schedule_status faults session sid ns) db).2 in
  stock_levels db' = stock_levels db
  ∧ (schedules db' = schedules db
     ∨ ∃ s sch, ns = Some s ∧ schedules db !! sid = Some sch
                ∧ terminal (status sch) = false
                ∧ schedules db' = <[sid := with_status s sch]> (schedules db))
  ∧ (∀ i, with_current_stock 0 <$> ports db' !! i
          = with_current_stock 0 <$> ports db !! i)
  ∧ (∀ i, with_current_stock 0 <$> plants db' !! i
          = with_current_stock 0 <$> plants db !! i)
  ∧ (user_activities db' = user_activities db
     ∨ ∃ a, user_activities db' = user_activities db ++ [a]
            ∧ session !! "user" = Some (user_email a)
            ∧ action a = "update_status").
Proof.
  destruct (check_request session ns) as [r|[user s]] eqn:Hc.
  { rewrite (serve_guarded _ _ _ _ _ r) by done. simpl. auto 10. }
  rewrite (serve_update _ _ _ _ _ user s) by done.
  assert (Huser : session !! "user" = Some user).
  { revert Hc. unfold check_request. repeat case_match; intros [= <- <-]; done. }
  apply check_request_inr in Hc as (-> & _ & _).
  unfold_handler. simpl.
  destruct (faults 0%nat); simpl; [rollback_cases; simpl; auto 10|].
  destruct (schedules db !! sid) as [sch|] eqn:Hsch; simpl; [|auto 10].
  destruct (terminal (status sch)) eqn:Hterm; simpl; [auto 10|].
  assert (Hset : set_status s sid (schedules db) = <[sid := with_status s sch]> (schedules db)).
  { unfold set_status. apply map_eq. intros i. rewrite lookup_alter.
    destruct (decide (sid = i)) as [->|Hne].
    - by rewrite lookup_insert_eq, Hsch.
    - by rewrite lookup_insert_ne. }
  assert (Hwrite : ∃ s0 sch0, Some s = Some s0 ∧ Some sch = Some sch0
            ∧ terminal (status sch0) = false
            ∧ <[sid := with_status s sch]> (schedules db)
              = <[sid := with_status s0 sch0]> (schedules db))
    by (exists s, sch; done).
  case_bool_decide; simpl.
  - case_bool_decide; simpl; [|case_bool_decide; simpl].
    + destruct (faults 1%nat); simpl; [rollback_cases; simpl; auto 10|].
      destruct (add_stock _ _ (ports db)) as [e|t] eqn:Ha; simpl; [rollback_cases; simpl; auto 10|].
      pose proof (add_stock_frame _ _ _ _ Ha).
      fault_cases faults; rewrite ?Hset; split_and!; eauto 10.
    + destruct (faults 1%nat); simpl; [rollback_cases; simpl; auto 10|].
      destruct (add_stock _ _ (ports db)) as [e|t] eqn:Ha; simpl; [rollback_cases; simpl; auto 10|].
      pose proof (add_stock_frame _ _ _ _ Ha).
      destruct (faults 2%nat); simpl; [rollback_cases; simpl; auto 10|].
      destruct (add_stock _ _ (plants db)) as [e|t2] eqn:Ha2; simpl; [rollback_cases; simpl; auto 10|].
      pose proof (add_stock_frame _ _ _ _ Ha2).
      fault_cases faults; rewrite ?Hset; split_and!; eauto 10.
    + fault_cases faults; rewrite ?Hset; split_and!; eauto 10.
  - fault_cases faults; rewrite ?Hset; split_and!; eauto 10.
Qed.

(** A transition that reports success has logged exactly one activity. *)
Lemma updated_logs_once faults user sid s db db1 :
  serve (try_except (transaction faults user sid s) (on_exception faults)) db
    = (Updated sid s, db1) →
  ∃ a, user_activities db1 = user_activities db ++ [a].
Proof.
  unfold_handler. simpl.
  destruct (faults 0%nat); simpl; [by after_failure|].
  destruct (schedules db !! sid) as [sch|]; simpl; [|done].
  destruct (terminal (status sch)); simpl; [done|].
  case_bool_decide; simpl.
  - case_bool_decide; simpl; [|case_bool_decide; simpl].
    + destruct (faults 1%nat); simpl; [by after_failure|].
      destruct (add_stock _ _ _); simpl; [by after_failure|].
      fault_cases faults. intros [= <-]. simpl. eauto.
    + destruct (faults 1%nat); simpl; [by after_failure|].
      destruct (add_stock _ _ _); simpl; [by after_failure|].
      destruct (faults 2%nat); simpl; [by after_failure|].
      destruct (add_stock _ _ _); simpl; [by after_failure|].
      fault_cases faults. intros [= <-]. simpl. eauto.
    + fault_cases faults. intros [= <-]. simpl. eauto.
  - fault_cases faults. intros [= <-]. simpl. eauto.
Qed.

(** X3.  The activity log only grows, by at most one record per request:
    a status transition leaves user_activities as it was or appends one
    'update_status' record in the name of the session's user, whichever
    calls fail; when the handler reports success it has appended exactly
    one. *)
Theorem activity_log_is_append_only faults session sid ns db :
  let out := serve (update_schedule_status faults session sid ns) db in
  (user_activities out.2 = user_activities db
   ∨ ∃ a, user_activities out.2 = user_activities db ++ [a]
          ∧ session !! "user" = Some (user_email a)
          ∧ action a = "update_status")
  ∧ (∀ s, ns = Some s → out.1 = Updated sid s →
          ∃ a, user_activities out.2 = user_activities db ++ [a]).
Proof.
  intros out. split; [apply transition_outcomes|].
  intros s ->. subst out.
  destruct (check_request session (Some s)) as [r|[user s']] eqn:Hc.
  { rewrite (serve_guarded _ _ _ _ _ r) by done. simpl.
    apply check_request_inl in Hc as [-> | ->]; done. }
  rewrite (serve_update _ _ _ _ _ user s') by done.
  apply check_request_inr in Hc as ([= <-] & _ & _).
  destruct (serve _ db) as [r db1] eqn:Hserve. simpl. intros ->.
  by eapply updated_logs_once.
Qed.

Lemma activity_log_is_append_only_witness :
  ∃ a, user_activities
         (serve (update_schedule_status no_faults manager_session 1
                   (Some "delayed")) seed_db).2
       = user_activities seed_db ++ [a].
Proof.
  apply (proj2 (activity_log_is_append_only no_faults manager_session 1
                  (Some "delayed") seed_db) "delayed" eq_refl).
  vm_compute; reflexivity.
Defined.

(** X4.  A status transition creates and deletes no row and touches no
    column other than a schedule's status and a port's or plant's
    current_stock: whatever the request and whichever calls fail, the
    stock_levels table is unchanged, every port and plant row is the same
    up to current_stock, and every schedule row is the same up to
    status. *)
Theorem transition_changes_only_status_and_stock faults session sid ns db :
  let db' := (serve (update_schedule_status faults session sid ns) db).2 in
  stock_levels db' = stock_levels db
  ∧ (∀ i, with_current_stock 0 <$> ports db' !! i
          = with_current_stock 0 <$> ports db !! i)
  ∧ (∀ i, with_current_stock 0 <$> plants db' !! i
          = with_current_stock 0 <$> plants db !! i)
  ∧ (∀ i, with_status "" <$> schedules db' !! i
          = with_status "" <$> schedules db !! i).
Proof.
  intros db'.
  destruct (transition_outcomes faults session sid ns db)
    as (Hlevels & Hsched & Hports & Hplants & _).
  fold db' in Hlevels, Hsched, Hports, Hplants.
  split_and!; [done..|].
  intros i. destruct Hsched as [-> | (s & sch & _ & Hsch & _ & ->)]; [done|].
  destruct (decide (sid = i)) as [->|Hne].
  - by rewrite lookup_insert_eq, Hsch.
  - by rewrite lookup_insert_ne.
Qed.

(** One request leaves a terminal schedule's row as it is, whichever
    schedule the request names. *)
Lemma terminal_row_kept faults session sid' ns db sid sch :
  schedules db !! sid = Some sch →
  terminal (status sch) = true →
  schedules (serve (update_schedule_status faults session sid' ns) db).2 !! sid
  = Some sch.
Proof.
  intros Hsch Hterm.
  destruct (transition_outcomes faults session sid' ns db)
    as (_ & [-> | (s & sch' & _ & Hsch' & Hterm' & ->)] & _); [done|].
  destruct (decide (sid' = sid)) as [->|Hne].
  - congruence.
  - by rewrite lookup_insert_ne.
Qed.

(** X5.  Among requests served one after the other, each starting after
    the one before has been answered, 'completed' and 'canceled' are
    final: once a schedule is in one of them, no such sequence of
    status-transition requests, by whatever callers, for whatever
    schedules and with whatever calls failing, changes its row.
    (Requests that overlap are not covered: a request that read the
    status before the completion was written still writes its own.) *)
Theorem terminal_schedule_is_final rqs db sid sch :
  schedules db !! sid = Some sch →
  terminal (status sch) = true →
  schedules (serve_in_turn rqs db) !! sid = Some sch.
Proof.
  revert db. induction rqs as [|[faults rq] rest IH]; intros db Hsch Hterm.
  - done.
  - simpl. apply IH; [|done]. by apply terminal_row_kept.
Qed.

Lemma terminal_schedule_is_final_witness :
  status <$> schedules
    (serve_in_turn
       [(no_faults, Request manager_session 2 (Some "scheduled"));
        (no_faults, Request manager_session 1 (Some "completed"));
        (no_faults, Request manager_session 2 (Some "canceled"))]
       seed_db) !! 2
  = Some "completed".
Proof.
  rewrite (terminal_schedule_is_final _ seed_db 2
             (Schedule "port-to-plant" (Some 1) (Some 2) (Some 1) None (Some 1)
                2000 "2024-12-22" "completed" "system" "2025-01-01 00:00:00"));
    vm_compute; reflexivity.
Defined.

(** ** Edge cases of a completion *)

(** X6.  A reference that is NULL or names no row is not an error.  With
    no call failing, completing a 'vessel-to-port' schedule whose port
    reference dangles succeeds and changes no stock at all; completing a
    'port-to-plant' schedule whose port reference dangles still raises the
    plant's current_stock by the quantity, with no port lowered. *)
Theorem dangling_port_reference session sid db sch :
  authorized session →
  schedules db !! sid = Some sch →
  terminal (status sch) = false →
  dangling (port_id sch) (ports db) →
  let out := serve (update_schedule_status no_faults session sid
                      (Some "completed")) db in
  (type sch = "vessel-to-port" →
   out.1 = Updated sid "completed"
   ∧ ports out.2 = ports db ∧ plants out.2 = plants db)
  ∧ (type sch = "port-to-plant" →
     ∀ pl r, plant_id sch = Some pl → plants db !! pl = Some r →
             int4 (current_stock r + quantity sch) = true →
             out.1 = Updated sid "completed"
             ∧ ports out.2 = ports db
             ∧ plants out.2
               = <[pl := with_current_stock (current_stock r + quantity sch) r]>
                   (plants db)).
Proof.
  intros Hauth Hsch Hterm Hdang out. subst out.
  destruct (check_request_recognized session "completed") as (user & _ & Hc);
    [done | apply completed_recognized |].
  rewrite (serve_update _ _ _ _ _ user "completed") by done.
  assert (Hno : ∀ delta, add_stock delta (port_id sch) (ports db) = inr (ports db)).
  { intros delta. unfold add_stock. destruct (port_id sch) as [p|]; [|done].
    by rewrite (Hdang p). }
  split.
  - intros Hty. unfold_handler. simpl. rewrite Hsch, Hterm. simpl.
    rewrite Hty. simpl. rewrite Hno. done.
  - intros Hty pl r Hpl Hr Hfit. unfold_handler. simpl. rewrite Hsch, Hterm. simpl.
    rewrite Hty. simpl. rewrite Hno. simpl.
    unfold add_stock. rewrite Hpl, Hr, Hfit. done.
Qed.

(** The seed data with the port reference of schedule #1 set to NULL. *)
Lemma dangling_port_reference_witness :
  let sch := Schedule "vessel-to-port" (Some 1) None None (Some 1) None
               5000 "2025-01-06" "scheduled" "system" "2025-01-01 00:00:00" in
  let db := with_schedules (<[1 := sch]> (schedules seed_db)) seed_db in
  let out := serve (update_schedule_status no_faults manager_session 1
                      (Some "completed")) db in
  out.1 = Updated 1 "completed"
  ∧ ports out.2 = ports db ∧ plants out.2 = plants db.
Proof.
  intros sch db out.
  apply (dangling_port_reference manager_session 1 db sch).
  - split; [by eexists | vm_compute; reflexivity].
  - vm_compute; reflexivity.
  - vm_compute; reflexivity.
  - intros i Hi. discriminate Hi.
  - reflexivity.
Defined.

(** X7.  A completion whose stock update would leave the INTEGER range is
    refused as a whole: whichever calls fail, the store is exactly as
    before, the port's decrement of a 'port-to-plant' schedule included
    when it is the plant's increment that overflows.  The rollback is one
    of the first four calls of the request; the handler answers
    InternalError when that call goes through, and when it fails too the
    exception leaves the view. *)
Theorem overflowing_completion_is_rolled_back faults session sid db sch :
  authorized session →
  schedules db !! sid = Some sch →
  terminal (status sch) = false →
  delta_overflows sch db →
  let out := serve (update_schedule_status faults session sid
                      (Some "completed")) db in
  out.2 = db
  ∧ ∃ n, (1 ≤ n ≤ 3)%nat
         ∧ out.1 = if faults n then Unhandled StorageFailure else InternalError.
Proof.
  intros Hauth Hsch Hterm Hover out. subst out.
  destruct (check_request_recognized session "completed") as (user & _ & Hc);
    [done | apply completed_recognized |].
  rewrite (serve_update _ _ _ _ _ user "completed") by done.
  unfold_handler. simpl.
  destruct (faults 0%nat); simpl; [rolled_back 1%nat|].
  rewrite Hsch, Hterm. simpl.
  destruct Hover as [[Hty (p & r & Hp & Hr & Hbad)] | [Hty Hover]];
    rewrite Hty; simpl.
  - destruct (faults 1%nat); simpl; [rolled_back 2%nat|].
    unfold add_stock. rewrite Hp, Hr, Hbad. rolled_back 2%nat.
  - destruct (faults 1%nat); simpl; [rolled_back 2%nat|].
    destruct Hover as [(p & r & Hp & Hr & Hbad) | (p & r & Hp & Hr & Hbad)].
    + unfold Z.sub in Hbad. unfold add_stock. rewrite Hp, Hr, Hbad.
      rolled_back 2%nat.
    + destruct (add_stock _ _ (ports db)); simpl; [rolled_back 2%nat|].
      destruct (faults 2%nat); simpl; [rolled_back 3%nat|].
      unfold add_stock. rewrite Hp, Hr, Hbad. rolled_back 3%nat.
Qed.

(** The seed data with the quantity of schedule #1 raised to the largest
    INTEGER. *)
Lemma overflowing_completion_is_rolled_back_witness :
  let sch := Schedule "vessel-to-port" (Some 1) (Some 1) None (Some 1) None
               2147483647 "2025-01-06" "scheduled" "system"
               "2025-01-01 00:00:00" in
  let db := with_schedules (<[1 := sch]> (schedules seed_db)) seed_db in
  let out := serve (update_schedule_status no_faults manager_session 1
                      (Some "completed")) db in
  out.2 = db ∧ out.1 = InternalError.
Proof.
  intros sch db out.
  destruct (overflowing_completion_is_rolled_back no_faults manager_session 1 db sch)
    as (Hdb & n & _ & Hresp).
  - split; [by eexists | vm_compute; reflexivity].
  - vm_compute; reflexivity.
  - vm_compute; reflexivity.
  - left. split; [reflexivity|].
    exists 1, (seed_site "Port X" 10000 5000).
    split_and!; vm_compute; reflexivity.
  - split; [exact Hdb | exact Hresp].
Defined.

(** X8.  When a completion of a 'vessel-to-port' schedule gets through the
    log and then the status write or the final commit fails, every
    schedule is as before and the port's current_stock has nevertheless
    been raised by the quantity.  The handler answers InternalError when
    the rollback that follows the failed call goes through; when it fails
    too the exception leaves the view. *)
Theorem failure_after_log_keeps_stock_delta faults session sid db sch p r :
  authorized session →
  schedules db !! sid = Some sch →
  terminal (status sch) = false →
  type sch = "vessel-to-port" →
  port_id sch = Some p →
  ports db !! p = Some r →
  int4 (current_stock r + quantity sch) = true →
  (∀ k, (k < 4)%nat → faults k = false) →
  faults 4%nat = true ∨ faults 5%nat = true →
  let out := serve (update_schedule_status faults session sid
                      (Some "completed")) db in
  out.1 = (if faults (if faults 4%nat then 5%nat else 6%nat)
           then Unhandled StorageFailure else InternalError)
  ∧ schedules out.2 = schedules db
  ∧ ports out.2 !! p
    = Some (with_current_stock (current_stock r + quantity sch) r).
Proof.
  intros Hauth Hsch Hterm Hty Hp Hr Hfit Hok Hfail out. subst out.
  destruct (check_request_recognized session "completed") as (user & _ & Hc);
    [done | apply completed_recognized |].
  rewrite (serve_update _ _ _ _ _ user "completed") by done.
  pose proof (Hok 0%nat ltac:(lia)) as H0. pose proof (Hok 1%nat ltac:(lia)) as H1.
  pose proof (Hok 2%nat ltac:(lia)) as H2. pose proof (Hok 3%nat ltac:(lia)) as H3.
  unfold_handler. simpl.
  rewrite H0. simpl. rewrite Hsch, Hterm. simpl. rewrite Hty. simpl.
  rewrite H1. simpl. unfold add_stock. rewrite Hp, Hr, Hfit. simpl.
  rewrite H2. simpl. rewrite H3. simpl.
  destruct (faults 4%nat); simpl.
  - destruct (faults 5%nat); simpl; by rewrite lookup_insert_eq.
  - destruct Hfail as [|Hfail]; [done|]. rewrite Hfail. simpl.
    destruct (faults 6%nat); simpl; by rewrite lookup_insert_eq.
Qed.

Lemma failure_after_log_keeps_stock_delta_witness :
  let faults := λ k : nat, bool_decide (k = 5%nat) in
  let out := serve (update_schedule_status faults manager_session 3
                      (Some "completed")) seed_db in
  out.1 = InternalError
  ∧ schedules out.2 = schedules seed_db
  ∧ ports out.2 !! 2 = Some (seed_site "Port Y" 15000 15500).
Proof.
  intros faults out.
  apply (failure_after_log_keeps_stock_delta faults manager_session 3 seed_db
           (Schedule "vessel-to-port" (Some 1) (Some 2) None (Some 1) None
              7500 "2025-01-03" "in-progress" "system" "2025-01-01 00:00:00")
           2 (seed_site "Port Y" 15000 8000)).
  - split; [by eexists | vm_compute; reflexivity].
  - vm_compute; reflexivity.
  - vm_compute; reflexivity.
  - reflexivity.
  - reflexivity.
  - vm_compute; reflexivity.
  - vm_compute; reflexivity.
  - intros k Hk. unfold faults. apply bool_decide_eq_false. lia.
  - right. reflexivity.
Defined.

(** X9.  The log can run ahead of the ledger.  When a transition to a
    status other than 'completed' gets through the log and then the status
    write or the final commit fails, every schedule, port and plant is as
    before, yet user_activities has gained the record saying the schedule
    was updated.  The handler answers InternalError when the rollback that
    follows the failed call goes through; when it fails too the exception
    leaves the view. *)
Theorem failure_after_log_keeps_activity faults session user sid s db sch :
  session !! "user" = Some user →
  can_edit_data (session !! "role") = true →
  schedules db !! sid = Some sch →
  terminal (status sch) = false →
  s ∈ recognized →
  s ≠ "completed" →
  (∀ k, (k < 3)%nat → faults k = false) →
  faults 3%nat = true ∨ faults 4%nat = true →
  let out := serve (update_schedule_status faults session sid (Some s)) db in
  out.1 = (if faults (if faults 3%nat then 4%nat else 5%nat)
           then Unhandled StorageFailure else InternalError)
  ∧ schedules out.2 = schedules db
  ∧ ports out.2 = ports db
  ∧ plants out.2 = plants db
  ∧ user_activities out.2
    = user_activities db
      ++ [Activity user "update_status"
            ("Updated schedule #" +:+ pretty sid +:+ " to '" +:+ s +:+ "'.")].
Proof.
  intros Hu Hrole Hsch Hterm Hs Hne Hok Hfail out. subst out.
  destruct (check_request_recognized session s) as (user' & Hu' & Hc);
    [by split; [eexists|] | done |].
  assert (user' = user) as -> by congruence.
  rewrite (serve_update _ _ _ _ _ user s) by done.
  pose proof (Hok 0%nat ltac:(lia)) as H0. pose proof (Hok 1%nat ltac:(lia)) as H1.
  pose proof (Hok 2%nat ltac:(lia)) as H2.
  unfold_handler. simpl.
  rewrite H0. simpl. rewrite Hsch, Hterm. simpl.
  rewrite (bool_decide_false (s = "completed")) by done. simpl.
  rewrite H1. simpl. rewrite H2. simpl.
  destruct (faults 3%nat); simpl; [by destruct (faults 4%nat)|].
  destruct Hfail as [|Hfail]; [done|]. rewrite Hfail. simpl.
  by destruct (faults 5%nat).
Qed.

Lemma failure_after_log_keeps_activity_witness :
  let faults := λ k : nat, bool_decide (k = 3%nat) in
  let out := serve (update_schedule_status faults manager_session 1
                      (Some "delayed")) seed_db in
  out.1 = InternalError
  ∧ schedules out.2 = schedules seed_db
  ∧ ports out.2 = ports seed_db
  ∧ plants out.2 = plants seed_db
  ∧ user_activities out.2
    = user_activities seed_db
      ++ [Activity "manager@example.com" "update_status"
            ("Updated schedule #" +:+ pretty 1 +:+ " to '" +:+ "delayed" +:+ "'.")].
Proof.
  intros faults out.
  apply (failure_after_log_keeps_activity faults manager_session
           "manager@example.com" 1 "delayed" seed_db
           (Schedule "vessel-to-port" (Some 1) (Some 1) None (Some 1) None
              5000 "2025-01-06" "scheduled" "system" "2025-01-01 00:00:00")).
  - vm_compute; reflexivity.
  - vm_compute; reflexivity.
  - vm_compute; reflexivity.
  - vm_compute; reflexivity.
  - in_list.
  - discriminate.
  - intros k Hk. unfold faults. apply bool_decide_eq_false. lia.
  - left. reflexivity.
Defined.

(** ** The storage helpers *)

(** X10.  [execute_query] commits the whole connection, not only its own
    statement: when it returns, everything that was pending on the
    connection, earlier writes of the same request included, is committed
    together with the statement's effect; when it raises, the committed
    store is the one it started from. *)
Theorem execute_query_commits_pending_work faults (A : Type) q
    (run : database → db_error + (A * database)) c :
  match execute_query faults q run c with
  | (Returned a, c') =>
      run (working c) = inr (a, working c') ∧ committed c' = working c'
  | (Raised _, c') => committed c' = committed c
  end.
Proof.
  unfold execute_query, cur_execute, conn_commit, bind, ret, sent.
  destruct (faults (length (issued c))); simpl; [done|].
  destruct (run (working c)) as [e|[a w]]; simpl; [done|].
  destruct (faults _); simpl; done.
Qed.

(** ** Export *)

(** X11.  [export_data] is read-only and closed to anonymous callers: a
    request served on a fresh connection leaves the store as it was, for
    every data type and whichever calls fail, and a caller who is not
    logged in is redirected to the login page with nothing sent to the
    store, also for 'schedules' and 'stock_levels'. *)
Theorem export_data_is_read_only faults dict_writer session data_type db :
  (serve (export_data faults dict_writer session data_type) db).2 = db
  ∧ (session !! "user" = None →
     ∀ c, export_data faults dict_writer session data_type c
          = (Redirect "login", c)).
Proof.
  split.
  - unfold serve, export_data, execute_query, cur_execute, conn_commit, bind,
      ret, sent, get_db.
    destruct (session !! "user"); [|done].
    destruct (negb _); [done|]. simpl.
    destruct (faults 0%nat); simpl; [done|].
    destruct (select_all data_type db); simpl; [done|].
    destruct (faults 1%nat); simpl; done.
  - intros Hu c. unfold export_data. by rewrite Hu.
Qed.

Lemma export_data_is_read_only_witness :
  export_data no_faults plain_writer ∅ "schedules" (get_db seed_db)
  = (Redirect "login", get_db seed_db).
Proof.
  apply (proj2 (export_data_is_read_only no_faults plain_writer ∅ "schedules"
                  seed_db)).
  reflexivity.
Defined.

(** X12.  An empty table is exported as an empty body: no header line is
    written and the serializer is not called. *)
Theorem export_of_empty_table_is_empty faults dict_writer session db :
  is_Some (session !! "user") →
  faults 0%nat = false → faults 1%nat = false →
  (schedules db = ∅ →
   (export_data faults dict_writer session "schedules" (get_db db)).1
   = CsvAttachment "" "schedules.csv")
  ∧ (stock_levels db = ∅ →
     (export_data faults dict_writer session "stock_levels" (get_db db)).1
     = CsvAttachment "" "stock_levels.csv").
Proof.
  intros [u Hu] H0 H1.
  split; intros Hempty;
    unfold export_data, execute_query, cur_execute, conn_commit, bind, ret, sent,
      get_db; rewrite Hu; simpl; rewrite H0; simpl; rewrite Hempty, H1;
    by rewrite map_to_list_empty.
Qed.

Lemma export_of_empty_table_is_empty_witness :
  (export_data no_faults plain_writer manager_session "stock_levels"
     (get_db seed_db)).1
  = CsvAttachment "" "stock_levels.csv".
Proof.
  apply (export_of_empty_table_is_empty no_faults plain_writer manager_session
           seed_db); [by eexists | reflexivity..].
Defined.

(** X13.  The header of a 'schedules' export is the column list of the
    schedules table in table order: for a table that is not empty the
    serializer gets these twelve field names and one row per schedule. *)
Theorem export_header_is_the_column_list faults dict_writer session db :
  is_Some (session !! "user") →
  faults 0%nat = false → faults 1%nat = false →
  schedules db ≠ ∅ →
  (export_data faults dict_writer session "schedules" (get_db db)).1
  = CsvAttachment
      (dict_writer
         ["id"; "type"; "supplier_id"; "port_id"; "plant_id"; "vessel_id";
          "rake_id"; "quantity"; "scheduled_date"; "status"; "created_by";
          "created_at"]
         (schedule_row <$> map_to_list (schedules db)))
      "schedules.csv"
  ∧ length (schedule_row <$> map_to_list (schedules db)) = size (schedules db).
Proof.
  intros [u Hu] H0 H1 Hne. split.
  - unfold export_data, execute_query, cur_execute, conn_commit, bind, ret, sent,
      get_db. rewrite Hu. simpl. rewrite H0. simpl. rewrite H1.
    destruct (map_to_list (schedules db)) as [|kv rest] eqn:Hl.
    + by apply map_to_list_empty_iff in Hl.
    + done.
  - by rewrite length_fmap, length_map_to_list.
Qed.

Lemma export_header_is_the_column_list_witness :
  ∃ rows,
    (export_data no_faults plain_writer manager_session "schedules"
       (get_db seed_db)).1
    = CsvAttachment
        (plain_writer
           ["id"; "type"; "supplier_id"; "port_id"; "plant_id"; "vessel_id";
            "rake_id"; "quantity"; "scheduled_date"; "status"; "created_by";
            "created_at"] rows) "schedules.csv"
    ∧ length rows = 3%nat.
Proof.
  exists (schedule_row <$> map_to_list (schedules seed_db)).
  destruct (export_header_is_the_column_list no_faults plain_writer
              manager_session seed_db) as [Hbody Hlen].
  - by eexists.
  - reflexivity.
  - reflexivity.
  - intros Hempty. apply (f_equal (λ m : gmap Z schedule, m !! 1)) in Hempty.
    vm_compute in Hempty. discriminate Hempty.
  - split; [exact Hbody|]. rewrite Hlen. vm_compute; reflexivity.
Defined.

(** ** Upload filter *)

Lemma lower_ascii_idem a : lower_ascii (lower_ascii a) = lower_ascii a.
Proof. destruct a as [[] [] [] [] [] [] [] []]; reflexivity. Qed.

Lemma lower_ascii_dot a :
  bool_decide (lower_ascii a = dot) = bool_decide (a = dot).
Proof. destruct a as [[] [] [] [] [] [] [] []]; reflexivity. Qed.

Lemma lower_idem s : lower (lower s) = lower s.
Proof. induction s as [|a s IH]; simpl; [done|]. by rewrite lower_ascii_idem, IH. Qed.

Lemma has_char_lower s : has_char dot (lower s) = has_char dot s.
Proof. induction s as [|a s IH]; simpl; [done|]. by rewrite lower_ascii_dot, IH. Qed.

Lemma rsplit1_shape sep s :
  rsplit1 sep s = [s] ∨ ∃ h t, rsplit1 sep s = [h; t].
Proof.
  induction s as [|a s IH]; simpl; [by left|].
  destruct IH as [-> | (h & t & ->)]; [|eauto].
  case_bool_decide; eauto.
Qed.

Lemma rsplit1_lower s : rsplit1 dot (lower s) = lower <$> rsplit1 dot s.
Proof.
  induction s as [|a s IH]; simpl; [done|].
  rewrite IH, lower_ascii_dot.
  destruct (rsplit1_shape dot s) as [-> | (h & t & ->)]; simpl; [|done].
  by case_bool_decide.
Qed.

(** Without the separator there is nothing to split. *)
Lemma rsplit1_none sep s : has_char sep s = false → rsplit1 sep s = [s].
Proof.
  induction s as [|a s IH]; simpl; [done|].
  intros [Ha Hs]%orb_false_iff. rewrite (IH Hs), Ha. done.
Qed.

(** The split is at the last separator. *)
Lemma rsplit1_last sep stem ext :
  has_char sep ext = false →
  rsplit1 sep (stem +:+ String sep ext) = [stem; ext].
Proof.
  intros Hext. induction stem as [|a stem IH]; simpl.
  - rewrite (rsplit1_none _ _ Hext). by rewrite bool_decide_true.
  - by rewrite IH.
Qed.

Lemma has_char_app sep s t :
  has_char sep (s +:+ t) = has_char sep s || has_char sep t.
Proof.
  induction s as [|a s IH]; simpl; [done|].
  by rewrite IH, orb_assoc.
Qed.

(** A string with a separator splits at its last one. *)
Lemma last_separator sep s :
  has_char sep s = true →
  ∃ stem ext, s = stem +:+ String sep ext ∧ has_char sep ext = false.
Proof.
  induction s as [|a s IH]; simpl; [done|].
  destruct (has_char sep s) eqn:Hs.
  - intros _. destruct (IH eq_refl) as (stem & ext & -> & Hext).
    by exists (String a stem), ext.
  - rewrite orb_false_r. intros ->%bool_decide_eq_true.
    by exists EmptyString, s.
Qed.

(** X14.  [allowed_file] accepts exactly the names whose part after the
    last dot is csv, xlsx or xls in any letter case: a name without a dot
    is refused, and a name stem.ext, with no dot in ext, is accepted if and
    only if the lowered ext is one of the three; what comes before the
    last dot, earlier extensions or nothing at all, plays no part. *)
Theorem allowed_file_accepts_by_last_extension :
  (∀ filename, has_char dot filename = false → allowed_file filename = false)
  ∧ (∀ stem ext, has_char dot ext = false →
       allowed_file (stem +:+ String dot ext)
       = bool_decide (lower ext ∈ ALLOWED_EXTENSIONS))
  ∧ (∀ filename, allowed_file filename = true →
       ∃ stem ext, filename = stem +:+ String dot ext
                   ∧ has_char dot ext = false
                   ∧ lower ext ∈ ALLOWED_EXTENSIONS).
Proof.
  assert (Hsplit : ∀ stem ext, has_char dot ext = false →
            allowed_file (stem +:+ String dot ext)
            = bool_decide (lower ext ∈ ALLOWED_EXTENSIONS)).
  { intros stem ext Hext. unfold allowed_file.
    rewrite has_char_app, (rsplit1_last _ _ _ Hext). simpl.
    by rewrite orb_true_r. }
  split_and!; [|done|].
  - intros filename Hno. unfold allowed_file. by rewrite Hno.
  - intros filename Hok.
    assert (Hdot : has_char dot filename = true).
    { unfold allowed_file in Hok. by apply andb_true_iff in Hok as [? _]. }
    destruct (last_separator _ _ Hdot) as (stem & ext & -> & Hext).
    exists stem, ext. split_and!; [done..|].
    rewrite (Hsplit _ _ Hext) in Hok. by apply bool_decide_eq_true in Hok.
Qed.

Lemma allowed_file_accepts_by_last_extension_witness :
  allowed_file "report.final.XLSX" = true
  ∧ allowed_file "report.csv.exe" = false
  ∧ allowed_file "csv" = false.
Proof.
  destruct allowed_file_accepts_by_last_extension as (Hnone & Hsplit & _).
  split_and!.
  - exact (eq_trans (Hsplit "report.final" "XLSX" eq_refl) eq_refl).
  - exact (eq_trans (Hsplit "report.csv" "exe" eq_refl) eq_refl).
  - apply Hnone. reflexivity.
Defined.

(** X15.  [allowed_file] ignores letter case: two names that are equal
    once lowered are both accepted or both refused. *)
Theorem allowed_file_ignores_case s1 s2 :
  lower s1 = lower s2 → allowed_file s1 = allowed_file s2.
Proof.
  assert (Hlow : ∀ s, allowed_file (lower s) = allowed_file s).
  { intros s. unfold allowed_file.
    rewrite has_char_lower, rsplit1_lower, list_lookup_fmap.
    destruct (rsplit1 dot s !! 1%nat) as [ext|]; simpl; [|done].
    by rewrite lower_idem. }
  intros Heq. by rewrite <- (Hlow s1), <- (Hlow s2), Heq.
Qed.

Lemma allowed_file_ignores_case_witness :
  allowed_file "Stock.Csv" = allowed_file "STOCK.CSV".
Proof. apply allowed_file_ignores_case. reflexivity. Defined.

(** ** Accounts *)

Arguments user_by_email : simpl never.

Lemma user_by_email_Some e t i r :
  user_by_email (Some e) t = Some (i, r) → t !! i = Some r ∧ u_email r = e.
Proof.
  unfold user_by_email. intros H%head_Some_elem_of.
  apply list_elem_of_filter in H as [He Hin].
  by apply elem_of_map_to_list in Hin.
Qed.

Lemma user_by_email_None e t :
  user_by_email (Some e) t = None → ∀ i r, t !! i = Some r → u_email r ≠ e.
Proof.
  unfold user_by_email. intros H%head_None i r Hr He.
  apply (filter_nil_not_elem_of _ _ (i, r) H); [done|].
  by apply elem_of_map_to_list.
Qed.

Lemma user_by_email_present e t i r :
  t !! i = Some r → u_email r = e → is_Some (user_by_email (Some e) t).
Proof.
  intros Hr He. destruct (user_by_email (Some e) t) eqn:Hnone; [done|].
  by destruct (user_by_email_None _ _ Hnone i r).
Qed.

Lemma user_by_email_absent e t :
  (∀ i r, t !! i = Some r → u_email r ≠ e) → user_by_email (Some e) t = None.
Proof.
  intros Hno. destruct (user_by_email (Some e) t) as [[i r]|] eqn:Hsome; [|done].
  apply user_by_email_Some in Hsome as [Hr He]. by destruct (Hno i r).
Qed.

Lemma user_by_email_unique e t i r :
  unique_emails t → t !! i = Some r → u_email r = e →
  user_by_email (Some e) t = Some (i, r).
Proof.
  intros Huniq Hr He.
  destruct (user_by_email_present e t i r Hr He) as [[j r'] Hfound].
  rewrite Hfound. apply user_by_email_Some in Hfound as [Hr' He'].
  assert (j = i) as -> by (eapply Huniq; eauto; congruence).
  congruence.
Qed.

Ltac unfold_accounts :=
  unfold signup, register, login, wbind, wret, users_query, record_activity,
    insert_user, log_activity, execute_query, cur_execute, conn_commit, sent,
    bind, ret, get_db.

(** X16.  Signup never adds a row for an email that is already registered:
    whatever else the request holds and whichever calls fail, the users
    table and the other tables are left as they were, and when the lookup
    goes through the answer is 'User already exists'. *)
Theorem signup_rejects_registered_email faults store_as hash describe
    salt id data b i r :
  b_users b !! i = Some r →
  data !! "email" = Some (u_email r) →
  let out := signup faults store_as hash describe salt id (Some data) b in
  b_users out.2 = b_users b
  ∧ b_db out.2 = b_db b
  ∧ (u_email r ≠ "" → given (data !! "password") = true →
     given (data !! "name") = true →
     faults (b_calls b) = false → faults (S (b_calls b)) = false →
     out.1 = Json false "User already exists" 200).
Proof.
  intros Hr He out. subst out. unfold_accounts. rewrite He.
  destruct (user_by_email_present (u_email r) (b_users b) i r Hr eq_refl)
    as [found Hfound].
  destruct (negb _) eqn:Hgiven; simpl.
  - split_and!; [done..|]. intros Hne Hp Hn. revert Hgiven.
    rewrite Hp, Hn. simpl. by rewrite bool_decide_false.
  - destruct (faults (b_calls b)); simpl; [by split_and!|].
    destruct (faults (S (b_calls b))); simpl; [by split_and!|].
    rewrite Hfound. by split_and!.
Qed.

Lemma signup_rejects_registered_email_witness :
  let b := Backend seed_db
             (<[7 := UserRow "ann@example.com" "salt$old" "Ann" "user" true]> ∅) 0 in
  signup no_faults keep_all toy_hash toy_describe "salt" 8 (Some new_account) b
  = (Json false "User already exists" 200,
     Backend seed_db (b_users b) 2).
Proof.
  intros b.
  destruct (signup_rejects_registered_email no_faults keep_all toy_hash
              toy_describe "salt" 8 new_account b 7
              (UserRow "ann@example.com" "salt$old" "Ann" "user" true))
    as (_ & _ & Hresp); [vm_compute; reflexivity..|].
  rewrite (surjective_pairing (signup _ _ _ _ _ _ _ _)).
  rewrite Hresp by (done || vm_compute; reflexivity).
  vm_compute; reflexivity.
Defined.

(** A signup with nothing in its way. *)
Lemma signup_success faults store_as hash describe
    salt id data b e p n :
  data !! "email" = Some e → data !! "password" = Some p →
  data !! "name" = Some n →
  e ≠ "" → p ≠ "" → n ≠ "" →
  (∀ i r, b_users b !! i = Some r → u_email r ≠ e) →
  b_users b !! id = None →
  store_as (UserRow e (hash salt p) n "user" true)
  = Some (UserRow e (hash salt p) n "user" true) →
  (∀ k, (k < 6)%nat → faults (b_calls b + k)%nat = false) →
  signup faults store_as hash describe salt id (Some data) b
  = (Json true "Registration successful! You can now login." 200,
     Backend
       (with_user_activities
          (user_activities (b_db b)
           ++ [Activity e "signup" "New user registered as user"]) (b_db b))
       (<[id := UserRow e (hash salt p) n "user" true]> (b_users b))
       (b_calls b + 6)).
Proof.
  intros He Hp Hn Hne Hnp Hnn Hfree Hid Hfits Hok.
  pose proof (Hok 0%nat ltac:(lia)) as H0. pose proof (Hok 1%nat ltac:(lia)) as H1.
  pose proof (Hok 2%nat ltac:(lia)) as H2. pose proof (Hok 3%nat ltac:(lia)) as H3.
  pose proof (Hok 4%nat ltac:(lia)) as H4. pose proof (Hok 5%nat ltac:(lia)) as H5.
  rewrite Nat.add_0_r in H0.
  replace (b_calls b + 1)%nat with (S (b_calls b)) in H1 by lia.
  replace (b_calls b + 2)%nat with (S (S (b_calls b))) in H2 by lia.
  replace (b_calls b + 3)%nat with (S (S (S (b_calls b)))) in H3 by lia.
  replace (b_calls b + 4)%nat with (S (S (S (S (b_calls b + 0))))) in H4 by lia.
  replace (b_calls b + 5)%nat with (S (S (S (S (b_calls b + 1))))) in H5 by lia.
  unfold_accounts. rewrite He, Hp, Hn. simpl.
  rewrite !bool_decide_false by done. simpl.
  rewrite H0, H1. rewrite (user_by_email_absent _ _ Hfree). simpl.
  rewrite H2. rewrite Hfits. simpl.
  rewrite (bool_decide_false (is_Some _)) by (rewrite Hid; by intros [? ?]).
  rewrite (user_by_email_absent _ _ Hfree). simpl.
  rewrite H3. simpl. rewrite H4. simpl. rewrite H5. simpl.
  do 2 f_equal. lia.
Qed.

(** X17.  A signup that goes through registers the account with the role
    'user' and the hash of the password, whatever role the request asks
    for: with all three fields given, the email not yet registered, a
    fresh id, values that fit their columns and no call failing, the
    answer is success, the users table gains exactly that row and the
    activity log one 'signup' record. *)
Theorem signup_registers_plain_user faults store_as hash describe
    salt id data b e p n :
  data !! "email" = Some e → data !! "password" = Some p →
  data !! "name" = Some n →
  e ≠ "" → p ≠ "" → n ≠ "" →
  (∀ i r, b_users b !! i = Some r → u_email r ≠ e) →
  b_users b !! id = None →
  store_as (UserRow e (hash salt p) n "user" true)
  = Some (UserRow e (hash salt p) n "user" true) →
  (∀ k, (k < 6)%nat → faults (b_calls b + k)%nat = false) →
  signup faults store_as hash describe salt id (Some data) b
  = (Json true "Registration successful! You can now login." 200,
     Backend
       (with_user_activities
          (user_activities (b_db b)
           ++ [Activity e "signup" "New user registered as user"]) (b_db b))
       (<[id := UserRow e (hash salt p) n "user" true]> (b_users b))
       (b_calls b + 6)).
Proof. apply signup_success. Qed.

Lemma signup_registers_plain_user_witness :
  b_users (signup no_faults keep_all toy_hash toy_describe "salt" 1
             (Some new_account) empty_backend).2
  = <[1 := UserRow "ann@example.com" "salt$secret" "Ann" "user" true]> ∅.
Proof.
  rewrite (signup_registers_plain_user no_faults keep_all toy_hash toy_describe
             "salt" 1 new_account empty_backend "ann@example.com" "secret" "Ann");
    try done; try (vm_compute; reflexivity).
Defined.

(** The users table after a signup: as before, or with one new row, a
    'user', whose id and email were not in use. *)
Lemma signup_users_outcomes faults store_as hash describe salt id body b :
  let t' := b_users (signup faults store_as hash describe salt id body b).2 in
  t' = b_users b
  ∨ ∃ row kept, store_as row = Some kept
                ∧ u_role row = "user"
                ∧ t' = <[id := kept]> (b_users b)
                ∧ b_users b !! id = None
                ∧ user_by_email (Some (u_email kept)) (b_users b) = None.
Proof.
  unfold_accounts. destruct body as [data|]; simpl; [|by left].
  destruct (negb _); simpl; [by left|].
  destruct (faults (b_calls b)); simpl; [by left|].
  destruct (faults (S (b_calls b))); simpl; [by left|].
  destruct (user_by_email (data !! "email") (b_users b)); simpl; [by left|].
  destruct (faults (S (S (b_calls b)))); simpl; [by left|].
  destruct (store_as _) as [kept|] eqn:Hkept; simpl; [|by left].
  case_bool_decide as Hid; simpl; [by left|].
  case_bool_decide as Hmail; simpl; [by left|].
  assert (b_users b !! id = None) by (by apply eq_None_not_Some).
  assert (user_by_email (Some (u_email kept)) (b_users b) = None)
    by (by apply eq_None_not_Some).
  destruct (faults (S (S (S (b_calls b))))); simpl; [by left|].
  right. eexists _, kept. split; [exact Hkept|].
  destruct (faults _); simpl; [|destruct (faults _); simpl]; done.
Qed.

(** X18.  Signup keeps the accounts there are: whatever the request and
    whichever calls fail, every row of the users table is still there
    unchanged afterwards, and if no two rows shared an email before, no
    two do after. *)
Theorem signup_keeps_accounts faults store_as hash describe salt id body b :
  let t' := b_users (signup faults store_as hash describe salt id body b).2 in
  (∀ i r, b_users b !! i = Some r → t' !! i = Some r)
  ∧ (unique_emails (b_users b) → unique_emails t').
Proof.
  intros t'.
  destruct (signup_users_outcomes faults store_as hash describe salt id body b)
    as [Hsame | (row & kept & _ & _ & Hnew & Hid & Hmail)]; fold t' in Hsame || fold t' in Hnew.
  - rewrite Hsame. done.
  - rewrite Hnew. split.
    + intros i r Hr. rewrite lookup_insert_ne; [done|]. congruence.
    + intros Huniq i j r r' Hi Hj He.
      destruct (decide (id = i)) as [<-|Hni], (decide (id = j)) as [<-|Hnj];
        [done|..].
      * rewrite lookup_insert_eq in Hi. rewrite lookup_insert_ne in Hj by done.
        injection Hi as <-.
        by destruct (user_by_email_None _ _ Hmail j r').
      * rewrite lookup_insert_ne in Hi by done. rewrite lookup_insert_eq in Hj.
        injection Hj as <-.
        by destruct (user_by_email_None _ _ Hmail i r).
      * rewrite lookup_insert_ne in Hi, Hj by done. by eapply Huniq.
Qed.

(** Ann signs up where Bob and Carol have accounts: both rows are still
    there and the three emails differ. *)
Lemma signup_keeps_accounts_witness :
  let bob := UserRow "bob@example.com" "salt$b" "Bob" "manager" true in
  let carol := UserRow "carol@example.com" "salt$c" "Carol" "user" true in
  let b := Backend seed_db (<[7 := bob]> (<[9 := carol]> ∅)) 0 in
  let t' := b_users (signup no_faults keep_all toy_hash toy_describe "salt" 10
                       (Some new_account) b).2 in
  t' !! 7 = Some bob ∧ t' !! 9 = Some carol
  ∧ u_email <$> t' !! 10 = Some "ann@example.com"
  ∧ unique_emails t'.
Proof.
  intros bob carol b t'.
  destruct (signup_keeps_accounts no_faults keep_all toy_hash toy_describe "salt"
              10 (Some new_account) b) as [Hkept Huniq].
  split_and!.
  - apply Hkept. vm_compute; reflexivity.
  - apply Hkept. vm_compute; reflexivity.
  - vm_compute; reflexivity.
  - apply Huniq. intros i j r r' Hi Hj He. simpl in Hi, Hj.
    destruct (decide (i = 7)) as [->|Hi7], (decide (j = 7)) as [->|Hj7];
      [done|..].
    + rewrite lookup_insert_eq in Hi. rewrite lookup_insert_ne in Hj by done.
      injection Hi as <-.
      destruct (decide (j = 9)) as [->|Hj9].
      * rewrite lookup_insert_eq in Hj. injection Hj as <-. discriminate He.
      * rewrite lookup_insert_ne in Hj by done. by rewrite lookup_empty in Hj.
    + rewrite lookup_insert_eq in Hj. rewrite lookup_insert_ne in Hi by done.
      injection Hj as <-.
      destruct (decide (i = 9)) as [->|Hi9].
      * rewrite lookup_insert_eq in Hi. injection Hi as <-. discriminate He.
      * rewrite lookup_insert_ne in Hi by done. by rewrite lookup_empty in Hi.
    + rewrite lookup_insert_ne in Hi, Hj by done.
      destruct (decide (i = 9)) as [->|Hi9], (decide (j = 9)) as [->|Hj9];
        [done|..].
      * rewrite lookup_insert_ne in Hj by done. by rewrite lookup_empty in Hj.
      * rewrite lookup_insert_ne in Hi by done. by rewrite lookup_empty in Hi.
      * rewrite lookup_insert_ne in Hi by done. by rewrite lookup_empty in Hi.
Defined.

(** X19.  Signup can answer with an error although the account has been
    created: when the lookup and the insert go through and the activity
    log then fails, the answer is 'Registration error' and the new row is
    in the users table all the same. *)
Theorem signup_failure_after_insert faults store_as hash describe
    salt id data b e p n :
  data !! "email" = Some e → data !! "password" = Some p →
  data !! "name" = Some n →
  e ≠ "" → p ≠ "" → n ≠ "" →
  (∀ i r, b_users b !! i = Some r → u_email r ≠ e) →
  b_users b !! id = None →
  store_as (UserRow e (hash salt p) n "user" true)
  = Some (UserRow e (hash salt p) n "user" true) →
  (∀ k, (k < 4)%nat → faults (b_calls b + k)%nat = false) →
  faults (b_calls b + 4)%nat = true ∨ faults (b_calls b + 5)%nat = true →
  let out := signup faults store_as hash describe salt id (Some data) b in
  out.1 = Json false ("Registration error: "
                      +:+ describe (DbError StorageFailure)) 200
  ∧ b_users out.2 = <[id := UserRow e (hash salt p) n "user" true]> (b_users b)
  ∧ b_db out.2 = b_db b.
Proof.
  intros He Hp Hn Hne Hnp Hnn Hfree Hid Hfits Hok Hfail out. subst out.
  pose proof (Hok 0%nat ltac:(lia)) as H0. pose proof (Hok 1%nat ltac:(lia)) as H1.
  pose proof (Hok 2%nat ltac:(lia)) as H2. pose proof (Hok 3%nat ltac:(lia)) as H3.
  rewrite Nat.add_0_r in H0.
  replace (b_calls b + 1)%nat with (S (b_calls b)) in H1 by lia.
  replace (b_calls b + 2)%nat with (S (S (b_calls b))) in H2 by lia.
  replace (b_calls b + 3)%nat with (S (S (S (b_calls b)))) in H3 by lia.
  replace (b_calls b + 4)%nat with (S (S (S (S (b_calls b + 0))))) in Hfail by lia.
  replace (b_calls b + 5)%nat with (S (S (S (S (b_calls b + 1))))) in Hfail by lia.
  unfold_accounts. rewrite He, Hp, Hn. simpl.
  rewrite !bool_decide_false by done. simpl.
  rewrite H0, H1. rewrite (user_by_email_absent _ _ Hfree). simpl.
  rewrite H2. rewrite Hfits. simpl.
  rewrite (bool_decide_false (is_Some _)) by (rewrite Hid; by intros [? ?]).
  rewrite (user_by_email_absent _ _ Hfree). simpl.
  rewrite H3. simpl.
  destruct (faults (S (S (S (S (b_calls b + 0)))))); simpl; [done|].
  destruct Hfail as [|Hfail]; [done|]. by rewrite Hfail.
Qed.

Lemma signup_failure_after_insert_witness :
  let faults := λ k : nat, bool_decide (k = 4%nat) in
  let out := signup faults keep_all toy_hash toy_describe "salt" 1
               (Some new_account) empty_backend in
  out.1 = Json false ("Registration error: " +:+ "the store failed") 200
  ∧ b_users out.2
    = <[1 := UserRow "ann@example.com" (toy_hash "salt" "secret") "Ann" "user" true]> ∅
  ∧ b_db out.2 = seed_db.
Proof.
  intros faults out.
  apply (signup_failure_after_insert faults keep_all toy_hash toy_describe
           "salt" 1 new_account empty_backend "ann@example.com" "secret" "Ann");
    try done; try (vm_compute; reflexivity).
  - intros k Hk. unfold faults. apply bool_decide_eq_false. simpl. lia.
  - left. reflexivity.
Defined.

(** ** Login *)

(** X20.  Login lets a caller in only with the password and the role of the
    account: if it answers with the redirect to the dashboard, the users
    table holds a row with the given email whose hash the given password
    passes and whose role is the one the form asked for, and the session
    then carries that email and that role; an answer with the login page
    leaves the session and every table as they were. *)
Theorem login_checks_password_and_role faults check form session b :
  let out := login faults check form session b in
  (out.1.1 = ToDashboard →
   ∃ fields e p id row,
     form = Some fields
     ∧ fields !! "email" = Some e ∧ fields !! "password" = Some p
     ∧ b_users b !! id = Some row ∧ u_email row = e
     ∧ check (u_password row) p = true
     ∧ fields !! "role" = Some (u_role row)
     ∧ out.1.2 !! "user" = Some e
     ∧ out.1.2 !! "role" = Some (u_role row))
  ∧ (∀ page, out.1.1 = LoginPage page →
     out.1.2 = session ∧ b_db out.2 = b_db b ∧ b_users out.2 = b_users b).
Proof.
  intros out. subst out. unfold_accounts.
  assert (Hlogin : ∀ e row (s : gmap string string),
            (<["user" := e]> (<["role" := u_role row]> s)) !! "user" = Some e
            ∧ (<["user" := e]> (<["role" := u_role row]> s)) !! "role"
              = Some (u_role row)).
  { intros e row s. split; [by rewrite lookup_insert_eq|].
    rewrite lookup_insert_ne by done. by rewrite lookup_insert_eq. }
  destruct form as [fields|]; simpl; [|by split; [intros [=]|]].
  destruct (faults (b_calls b)); simpl; [by split; [intros [=]|intros ? [=]]|].
  destruct (faults (S (b_calls b))); simpl; [by split; [intros [=]|intros ? [=]]|].
  destruct (user_by_email (fields !! "email") (b_users b)) as [[id row]|] eqn:Hfound;
    simpl; [|by split; [intros [=]|]].
  destruct (fields !! "email") as [e|] eqn:He; [|done].
  apply user_by_email_Some in Hfound as [Hrow Hmail].
  destruct (fields !! "password") as [p|] eqn:Hp; simpl;
    [|by split; [intros [=]|intros ? [=]]].
  destruct (check (u_password row) p) eqn:Hcheck; simpl;
    [|by split; [intros [=]|]].
  case_bool_decide as Hrole; simpl; [|by split; [intros [=]|]].
  destruct (Hlogin e row (<["name" := u_name row]> (<["user_id" := pretty id]> session)))
    as [Hsu Hsr].
  destruct (faults _); simpl; [by split; [intros [=]|intros ? [=]]|].
  destruct (faults _); simpl; [by split; [intros [=]|intros ? [=]]|].
  split; [|intros ? [=]].
  intros _. exists fields, e, p, id, row. by split_and!.
Qed.

Lemma login_checks_password_and_role_witness :
  let b := Backend seed_db
             (<[7 := UserRow "ann@example.com" "salt$secret" "Ann" "user" true]> ∅) 0 in
  let form : gmap string string :=
    <["email" := "ann@example.com"]> (<["password" := "secret"]>
    (<["role" := "admin"]> ∅)) in
  let out := login no_faults toy_check (Some form) ∅ b in
  out.1.1 = LoginPage (Some "Invalid credentials or role mismatch")
  ∧ out.1.2 = ∅ ∧ b_db out.2 = b_db b ∧ b_users out.2 = b_users b.
Proof.
  intros b form out. split; [vm_compute; reflexivity|].
  apply (proj2 (login_checks_password_and_role no_faults toy_check (Some form) ∅ b)
           (Some "Invalid credentials or role mismatch")).
  vm_compute; reflexivity.
Defined.

(** X21.  Signup then login: an account registered by a signup that goes
    through can log in with the same email and password and the role
    'user', provided the hash check accepts the hash made of a password;
    the session it gets carries the role 'user', with which every
    status-transition request is answered with Unauthorized. *)
Theorem signed_up_user_logs_in_without_edit_rights store_as hash check describe
    salt id data fields session b e p n :
  data !! "email" = Some e → data !! "password" = Some p →
  data !! "name" = Some n →
  e ≠ "" → p ≠ "" → n ≠ "" →
  (∀ i r, b_users b !! i = Some r → u_email r ≠ e) →
  b_users b !! id = None →
  store_as (UserRow e (hash salt p) n "user" true)
  = Some (UserRow e (hash salt p) n "user" true) →
  check (hash salt p) p = true →
  fields !! "email" = Some e → fields !! "password" = Some p →
  fields !! "role" = Some "user" →
  let b1 := (signup no_faults store_as hash describe salt id (Some data) b).2 in
  let out := login no_faults check (Some fields) session b1 in
  out.1.1 = ToDashboard
  ∧ out.1.2 !! "user" = Some e
  ∧ out.1.2 !! "role" = Some "user"
  ∧ ∀ faults sid ns c,
      update_schedule_status faults out.1.2 sid ns c = (Unauthorized, c).
Proof.
  intros He Hp Hn Hne Hnp Hnn Hfree Hid Hfits Hcheck Hfe Hfp Hfr b1 out.
  subst out b1.
  rewrite (signup_success no_faults store_as hash describe salt id data b e p n)
    by done.
  set (row := UserRow e (hash salt p) n "user" true).
  assert (Hfound : user_by_email (Some e) (<[id := row]> (b_users b))
                   = Some (id, row)).
  { destruct (user_by_email_present e (<[id := row]> (b_users b)) id row)
      as [[j r'] Hj]; [by rewrite lookup_insert_eq | done |].
    rewrite Hj. apply user_by_email_Some in Hj as [Hr' He'].
    destruct (decide (id = j)) as [<-|Hne'].
    - rewrite lookup_insert_eq in Hr'. by injection Hr' as <-.
    - rewrite lookup_insert_ne in Hr' by done. by destruct (Hfree j r'). }
  unfold_accounts. simpl. rewrite Hfe, Hfp, Hfr. rewrite Hfound. simpl.
  rewrite Hcheck. simpl.
  split_and!; [done | by rewrite lookup_insert_eq | |].
  - rewrite lookup_insert_ne by done. by rewrite lookup_insert_eq.
  - intros faults sid ns c. unfold update_schedule_status, check_request.
    rewrite lookup_insert_eq. rewrite lookup_insert_ne by done.
    by rewrite lookup_insert_eq.
Qed.

Lemma signed_up_user_logs_in_without_edit_rights_witness :
  let b1 := (signup no_faults keep_all toy_hash toy_describe "salt" 1
               (Some new_account) empty_backend).2 in
  let form : gmap string string :=
    <["email" := "ann@example.com"]> (<["password" := "secret"]>
    (<["role" := "user"]> ∅)) in
  let out := login no_faults toy_check (Some form) ∅ b1 in
  out.1.1 = ToDashboard
  ∧ out.1.2 !! "user" = Some "ann@example.com"
  ∧ out.1.2 !! "role" = Some "user"
  ∧ ∀ faults sid ns c,
      update_schedule_status faults out.1.2 sid ns c = (Unauthorized, c).
Proof.
  intros b1 form out.
  apply (signed_up_user_logs_in_without_edit_rights keep_all toy_hash toy_check
           toy_describe "salt" 1 new_account form ∅ empty_backend
           "ann@example.com" "secret" "Ann");
    try done; try (vm_compute; reflexivity).
Defined.

(** ** Locations *)

Ltac unfold_locations :=
  unfold add_location, add_location_body, delete_location, store_query, wbind,
    wret, record_activity, log_activity, execute_query, cur_execute,
    conn_commit, sent, bind, ret, get_db.

(** X22.  Adding and deleting locations is for the owner tier only: a
    caller who is not logged in or whose role is neither admin nor owner,
    a manager included, is answered with Unauthorized by both handlers
    (with status 403 by the one, 200 by the other) and nothing is sent to
    the store. *)
Theorem location_management_needs_owner_tier faults parse_int store_text
    capitalize delete_elsewhere id now session body b :
  ¬ (is_Some (session !! "user") ∧ is_owner (session !! "role") = true) →
  add_location faults parse_int store_text id now session body b
  = (Json false "Unauthorized" 403, b)
  ∧ delete_location faults parse_int capitalize delete_elsewhere session body b
    = (inr (Json false "Unauthorized" 200), b).
Proof.
  intros Hno. unfold add_location, delete_location.
  destruct (session !! "user") as [u|]; [|done].
  destruct (is_owner (session !! "role")); [|done].
  destruct Hno. split; [by eexists | done].
Qed.

Lemma location_management_needs_owner_tier_witness :
  can_edit_data (manager_session !! "role") = true
  ∧ add_location no_faults toy_parse_int Some 3 "2025-02-01" manager_session
      None empty_backend
    = (Json false "Unauthorized" 403, empty_backend).
Proof.
  split; [vm_compute; reflexivity|].
  apply (location_management_needs_owner_tier no_faults toy_parse_int Some
           toy_capitalize nothing_elsewhere 3 "2025-02-01" manager_session None
           empty_backend).
  intros [_ Hrole]. vm_compute in Hrole. discriminate Hrole.
Defined.

(** X23.  The fields of [add_location] are checked before anything is sent
    to the store, in this order: a missing, empty or zero field (a
    capacity given as the number 0 counts as missing) gives 'Missing
    required fields.'; a type other than 'port' and 'plant' gives
    'Invalid location type.'; a capacity text that is no number gives
    'Capacity must be a valid number.'. *)
Theorem add_location_validates_first faults parse_int store_text id now
    session data b :
  is_Some (session !! "user") →
  is_owner (session !! "role") = true →
  let out := add_location faults parse_int store_text id now session (Some data) b in
  (data !! "capacity" = Some (JNumber 0) →
   out = (Json false "Missing required fields." 400, b))
  ∧ (truthy (default JNull (data !! "type")) = true →
     truthy (default JNull (data !! "name")) = true →
     truthy (default JNull (data !! "capacity")) = true →
     data !! "type" ≠ Some (JString "port") →
     data !! "type" ≠ Some (JString "plant") →
     out = (Json false "Invalid location type." 400, b))
  ∧ (∀ s, truthy (default JNull (data !! "name")) = true →
     data !! "type" = Some (JString "port")
     ∨ data !! "type" = Some (JString "plant") →
     data !! "capacity" = Some (JString s) → s ≠ "" →
     parse_int s = None →
     out = (Json false "Capacity must be a valid number." 400, b)).
Proof.
  intros [u Hu] Hrole out. subst out. unfold_locations. rewrite Hu, Hrole. simpl.
  split_and!.
  - intros ->. simpl. by rewrite !andb_false_r.
  - intros Ht Hn Hc Hport Hplant. rewrite Ht, Hn, Hc. simpl.
    destruct (data !! "type") as [ty|]; simpl in *; [|done].
    rewrite !bool_decide_false; [done| |]; congruence.
  - intros s Hn Hty Hc Hs Hparse. rewrite Hn, Hc. simpl.
    rewrite (bool_decide_false (s = "")) by done.
    destruct Hty as [-> | ->]; simpl; by rewrite Hparse.
Qed.

Lemma add_location_validates_first_witness :
  let data : gmap string json :=
    <["type" := JString "port"]> (<["name" := JString "Port Z"]>
    (<["capacity" := JNumber 0]> ∅)) in
  add_location no_faults toy_parse_int Some 3 "2025-02-01" owner_session
    (Some data) empty_backend
  = (Json false "Missing required fields." 400, empty_backend).
Proof.
  intros data.
  apply (add_location_validates_first no_faults toy_parse_int Some 3 "2025-02-01"
           owner_session data empty_backend).
  - by eexists.
  - vm_compute; reflexivity.
  - vm_compute; reflexivity.
Defined.

(** An [add_location] of a port with nothing in its way. *)
Lemma add_port_success faults parse_int store_text id now session user data b
    n cap loc :
  session !! "user" = Some user →
  is_owner (session !! "role") = true →
  data !! "type" = Some (JString "port") →
  data !! "name" = Some (JString n) → n ≠ "" →
  truthy (default JNull (data !! "capacity")) = true →
  int_of parse_int (default JNull (data !! "capacity")) = inr cap →
  data !! "location" = Some (JString loc) →
  store_text n = Some n → store_text loc = Some loc →
  int4 cap = true →
  ports (b_db b) !! id = None →
  (∀ k, (k < 4)%nat → faults (b_calls b + k)%nat = false) →
  add_location faults parse_int store_text id now session (Some data) b
  = (Json true "Port added successfully" 200,
     Backend
       (with_user_activities
          (user_activities (b_db b)
           ++ [Activity user "add_location" ("Added port: " +:+ n)])
          (with_ports (<[id := Site n cap 0 (Some loc) "operational" now]>
                         (ports (b_db b))) (b_db b)))
       (b_users b) (b_calls b + 4)).
Proof.
  intros Hu Hrole Hty Hn Hne Hc Hcap Hloc Hsn Hsl Hint Hid Hok.
  pose proof (Hok 0%nat ltac:(lia)) as H0. pose proof (Hok 1%nat ltac:(lia)) as H1.
  pose proof (Hok 2%nat ltac:(lia)) as H2. pose proof (Hok 3%nat ltac:(lia)) as H3.
  rewrite Nat.add_0_r in H0.
  replace (b_calls b + 1)%nat with (S (b_calls b)) in H1 by lia.
  replace (b_calls b + 2)%nat with (S (S (b_calls b + 0))) in H2 by lia.
  replace (b_calls b + 3)%nat with (S (S (b_calls b + 1))) in H3 by lia.
  unfold_locations. rewrite Hu, Hrole, Hty, Hn, Hloc. simpl.
  rewrite Hc, Hcap. simpl. rewrite (bool_decide_false (n = "")) by done. simpl.
  rewrite H0. unfold insert_site. rewrite Hsn, Hsl. simpl. rewrite Hint. simpl.
  rewrite (bool_decide_false (is_Some _)) by (rewrite Hid; by intros [? ?]).
  rewrite H1. simpl. rewrite H2. simpl. rewrite H3. simpl.
  do 2 f_equal. lia.
Qed.

(** X24.  A port added by [add_location] starts empty and operational, and
    the sign of its capacity is not checked.  With the fields valid, a
    fresh id and no call failing, the ports table gains exactly the row
    (name, capacity, current_stock 0, location, 'operational'), plants and
    schedules are as before, and the new row is within
    0 <= current_stock <= capacity exactly when the capacity is not
    negative. *)
Theorem add_location_adds_empty_port faults parse_int store_text id now session
    user data b n cap loc :
  session !! "user" = Some user →
  is_owner (session !! "role") = true →
  data !! "type" = Some (JString "port") →
  data !! "name" = Some (JString n) → n ≠ "" →
  truthy (default JNull (data !! "capacity")) = true →
  int_of parse_int (default JNull (data !! "capacity")) = inr cap →
  data !! "location" = Some (JString loc) →
  store_text n = Some n → store_text loc = Some loc →
  int4 cap = true →
  ports (b_db b) !! id = None →
  (∀ k, (k < 4)%nat → faults (b_calls b + k)%nat = false) →
  let out := add_location faults parse_int store_text id now session (Some data) b in
  out.1 = Json true "Port added successfully" 200
  ∧ ports (b_db out.2)
    = <[id := Site n cap 0 (Some loc) "operational" now]> (ports (b_db b))
  ∧ plants (b_db out.2) = plants (b_db b)
  ∧ schedules (b_db out.2) = schedules (b_db b)
  ∧ (within_capacity (Site n cap 0 (Some loc) "operational" now) ↔ 0 ≤ cap).
Proof.
  intros Hu Hrole Hty Hn Hne Hc Hcap Hloc Hsn Hsl Hint Hid Hok out. subst out.
  rewrite (add_port_success faults parse_int store_text id now session user data b
             n cap loc) by done.
  split_and!; try done. unfold within_capacity. simpl. lia.
Qed.

Lemma add_location_adds_empty_port_witness :
  let data : gmap string json :=
    <["type" := JString "port"]> (<["name" := JString "Port Z"]>
    (<["capacity" := JString "-5"]> (<["location" := JString "North"]> ∅))) in
  let out := add_location no_faults toy_parse_int Some 3 "2025-02-01"
               owner_session (Some data) empty_backend in
  out.1 = Json true "Port added successfully" 200
  ∧ ports (b_db out.2)
    = <[3 := Site "Port Z" (-5) 0 (Some "North") "operational" "2025-02-01"]>
        (ports seed_db)
  ∧ ¬ within_capacity (Site "Port Z" (-5) 0 (Some "North") "operational" "2025-02-01").
Proof.
  intros data out.
  destruct (add_location_adds_empty_port no_faults toy_parse_int Some 3
              "2025-02-01" owner_session "owner@example.com" data empty_backend
              "Port Z" (-5) "North")
    as (Hresp & Hports & _ & _ & Hbound);
    [first [done | vm_compute; reflexivity]..|].
  split_and!; [exact Hresp | exact Hports |].
  intros Hin. apply Hbound in Hin. lia.
Defined.

Lemma port_referenced_by_schedule id d i r :
  schedules d !! i = Some r → port_id r = Some id → port_referencedb id d = true.
Proof.
  intros Hr Hp. unfold port_referencedb.
  rewrite bool_decide_true; [done|]. by exists i, r.
Qed.

(** X25.  A port that a schedule still points at cannot be deleted: the
    DELETE breaks the foreign key, the exception leaves the view, and every
    table is as before, whichever calls fail. *)
Theorem referenced_port_is_not_deleted faults parse_int capitalize
    delete_elsewhere session data b id i r :
  is_Some (session !! "user") →
  is_owner (session !! "role") = true →
  data !! "type" = Some (JString "port") →
  int_of parse_int (default JNull (data !! "id")) = inr id →
  schedules (b_db b) !! i = Some r → port_id r = Some id →
  let out := delete_location faults parse_int capitalize delete_elsewhere
               session (Some data) b in
  b_db out.2 = b_db b ∧ b_users out.2 = b_users b
  ∧ (faults (b_calls b) = false → out.1 = inl ForeignKeyViolation).
Proof.
  intros [u Hu] Hrole Hty Hid Hr Hp out. subst out.
  unfold_locations. rewrite Hu, Hrole, Hty, Hid. simpl.
  destruct (faults (b_calls b)); simpl; [done|].
  unfold delete_from. simpl.
  by rewrite (port_referenced_by_schedule id (b_db b) i r).
Qed.

Lemma referenced_port_is_not_deleted_witness :
  let data : gmap string json :=
    <["type" := JString "port"]> (<["id" := JNumber 1]> ∅) in
  delete_location no_faults toy_parse_int toy_capitalize nothing_elsewhere
    owner_session (Some data) empty_backend
  = (inl ForeignKeyViolation, Backend seed_db ∅ 1).
Proof.
  intros data.
  destruct (referenced_port_is_not_deleted no_faults toy_parse_int toy_capitalize
              nothing_elsewhere owner_session data empty_backend 1 1
              (Schedule "vessel-to-port" (Some 1) (Some 1) None (Some 1) None
                 5000 "2025-01-06" "scheduled" "system" "2025-01-01 00:00:00"))
    as (_ & _ & Hresp); [by eexists | vm_compute; reflexivity..|].
  rewrite (surjective_pairing (delete_location _ _ _ _ _ _ _)).
  rewrite Hresp by reflexivity. vm_compute; reflexivity.
Defined.

(** X26.  [delete_location] has no list of allowed types: the table is the
    type with an 's' appended, so an owner-tier request with the type
    'schedule' deletes that row of the schedule ledger, and with the type
    'user' that account, and is answered with success. *)
Theorem delete_location_takes_any_table faults parse_int capitalize
    delete_elsewhere session user data b id :
  session !! "user" = Some user →
  is_owner (session !! "role") = true →
  int_of parse_int (default JNull (data !! "id")) = inr id →
  (∀ k, (k < 4)%nat → faults (b_calls b + k)%nat = false) →
  let out := delete_location faults parse_int capitalize delete_elsewhere
               session (Some data) b in
  (data !! "type" = Some (JString "schedule") →
   out.1 = inr (Json true (capitalize "schedule" +:+ " deleted successfully") 200)
   ∧ schedules (b_db out.2) = delete id (schedules (b_db b))
   ∧ b_users out.2 = b_users b)
  ∧ (data !! "type" = Some (JString "user") →
     out.1 = inr (Json true (capitalize "user" +:+ " deleted successfully") 200)
     ∧ b_users out.2 = delete id (b_users b)
     ∧ schedules (b_db out.2) = schedules (b_db b)).
Proof.
  intros Hu Hrole Hid Hok out. subst out.
  pose proof (Hok 0%nat ltac:(lia)) as H0. pose proof (Hok 1%nat ltac:(lia)) as H1.
  pose proof (Hok 2%nat ltac:(lia)) as H2. pose proof (Hok 3%nat ltac:(lia)) as H3.
  rewrite Nat.add_0_r in H0.
  replace (b_calls b + 1)%nat with (S (b_calls b)) in H1 by lia.
  replace (b_calls b + 2)%nat with (S (S (b_calls b + 0))) in H2 by lia.
  replace (b_calls b + 3)%nat with (S (S (b_calls b + 1))) in H3 by lia.
  split; intros Hty; unfold_locations; rewrite Hu, Hrole, Hty, Hid; simpl;
    rewrite H0; unfold delete_from; simpl; rewrite H1; simpl; rewrite H2; simpl;
    rewrite H3; done.
Qed.

Lemma delete_location_takes_any_table_witness :
  let data : gmap string json :=
    <["type" := JString "schedule"]> (<["id" := JNumber 2]> ∅) in
  let out := delete_location no_faults toy_parse_int toy_capitalize
               nothing_elsewhere owner_session (Some data) empty_backend in
  out.1 = inr (Json true "Schedule deleted successfully" 200)
  ∧ schedules (b_db out.2) !! 2 = None
  ∧ is_Some (schedules seed_db !! 2).
Proof.
  intros data out.
  destruct (delete_location_takes_any_table no_faults toy_parse_int toy_capitalize
              nothing_elsewhere owner_session "owner@example.com" data
              empty_backend 2) as [Hsched _];
    [first [done | vm_compute; reflexivity]..|].
  destruct (Hsched eq_refl) as (Hresp & Hrows & _).
  split_and!; [exact Hresp | | by eexists].
  fold out in Hrows. rewrite Hrows. apply lookup_delete_eq.
Defined.

(** X27.  Adding a port and deleting it again gives back the ports table:
    after an [add_location] that goes through, a [delete_location] of type
    'port' for the id it was given, with nothing pointing at that id and
    no call failing, is answered with success and leaves ports, plants and
    schedules as they were before the port was added. *)
Theorem add_then_delete_port faults parse_int store_text capitalize
    delete_elsewhere id now session user data removal b n cap loc :
  session !! "user" = Some user →
  is_owner (session !! "role") = true →
  data !! "type" = Some (JString "port") →
  data !! "name" = Some (JString n) → n ≠ "" →
  truthy (default JNull (data !! "capacity")) = true →
  int_of parse_int (default JNull (data !! "capacity")) = inr cap →
  data !! "location" = Some (JString loc) →
  store_text n = Some n → store_text loc = Some loc →
  int4 cap = true →
  ports (b_db b) !! id = None →
  port_referencedb id (b_db b) = false →
  removal !! "type" = Some (JString "port") →
  removal !! "id" = Some (JNumber id) →
  (∀ k, (k < 8)%nat → faults (b_calls b + k)%nat = false) →
  let b1 := (add_location faults parse_int store_text id now session
               (Some data) b).2 in
  let out := delete_location faults parse_int capitalize delete_elsewhere
               session (Some removal) b1 in
  out.1 = inr (Json true (capitalize "port" +:+ " deleted successfully") 200)
  ∧ ports (b_db out.2) = ports (b_db b)
  ∧ plants (b_db out.2) = plants (b_db b)
  ∧ schedules (b_db out.2) = schedules (b_db b).
Proof.
  intros Hu Hrole Hty Hn Hne Hc Hcap Hloc Hsn Hsl Hint Hid Href Hrty Hrid Hok
    b1 out. subst out b1.
  rewrite (add_port_success faults parse_int store_text id now session user data b
             n cap loc); try done; [|intros k Hk; apply Hok; lia].
  pose proof (Hok 4%nat ltac:(lia)) as H4. pose proof (Hok 5%nat ltac:(lia)) as H5.
  pose proof (Hok 6%nat ltac:(lia)) as H6. pose proof (Hok 7%nat ltac:(lia)) as H7.
  replace (b_calls b + 5)%nat with (S (b_calls b + 4)) in H5 by lia.
  replace (b_calls b + 6)%nat with (S (S (b_calls b + 4 + 0))) in H6 by lia.
  replace (b_calls b + 7)%nat with (S (S (b_calls b + 4 + 1))) in H7 by lia.
  unfold_locations. rewrite Hu, Hrole, Hrty, Hrid. simpl.
  rewrite H4. unfold delete_from. simpl.
  change (port_referencedb id _) with (port_referencedb id (b_db b)).
  rewrite Href. simpl. rewrite H5. simpl. rewrite H6. simpl. rewrite H7. simpl.
  split_and!; try done.
  rewrite delete_insert_eq. by apply delete_id.
Qed.

(** Port 3 is added to the seed data and deleted again. *)
Lemma add_then_delete_port_witness :
  let data : gmap string json :=
    <["type" := JString "port"]> (<["name" := JString "Port Z"]>
    (<["capacity" := JString "12000"]> (<["location" := JString "North"]> ∅))) in
  let removal : gmap string json :=
    <["type" := JString "port"]> (<["id" := JNumber 3]> ∅) in
  let b1 := (add_location no_faults toy_parse_int Some 3 "2025-02-01"
               owner_session (Some data) empty_backend).2 in
  let out := delete_location no_faults toy_parse_int toy_capitalize
               nothing_elsewhere owner_session (Some removal) b1 in
  is_Some (ports (b_db b1) !! 3)
  ∧ out.1 = inr (Json true "Port deleted successfully" 200)
  ∧ ports (b_db out.2) = ports seed_db.
Proof.
  intros data removal b1 out.
  destruct (add_then_delete_port no_faults toy_parse_int Some toy_capitalize
              nothing_elsewhere 3 "2025-02-01" owner_session "owner@example.com"
              data removal empty_backend "Port Z" 12000 "North")
    as (Hresp & Hports & _);
    [first [done | vm_compute; reflexivity]..|].
  split_and!; [by eexists | exact Hresp | exact Hports].
Defined.
